(** * Ethio: the Citizenry product scraper and its JSON-to-CSV cleaner

    A shallow embedding of [citizenry_scraper.py] and
    [json-to-csv-converter.py], and the properties of their text helpers,
    retry client, URL discovery and CSV export.

    Character model.  A Python [str] is a sequence of code points; here a
    character is an [ascii], read as a code point below 256 (Latin-1), and
    the classes [str.isspace], the regex classes [\s] and [\w] and
    [str.lower] are written out for that range as CPython defines them. *)

From Stdlib Require Import List Ascii Bool Arith NArith ZArith Lia.
From Stdlib Require Import ListSet.
From Stdlib Require Floats.SpecFloat.
Import ListNotations.

(* ================================================================== *)
(** * Python strings *)

Module PyStr.

(** [str] is a list of characters, so the list library applies to it. *)
Definition str := list ascii.

Inductive str_literal := LNil | LCons (a : ascii) (s : str_literal).

Fixpoint literal_of_bytes (b : list Byte.byte) : str_literal :=
  match b with
  | [] => LNil
  | x :: t => LCons (ascii_of_byte x) (literal_of_bytes t)
  end.

Fixpoint bytes_of_literal (s : str_literal) : list Byte.byte :=
  match s with
  | LNil => []
  | LCons a t => byte_of_ascii a :: bytes_of_literal t
  end.

Declare Scope str_scope.
Delimit Scope str_scope with str.
#[warnings="-via-type-remapping,-via-type-mismatch"]
String Notation str literal_of_bytes bytes_of_literal
  (via str_literal mapping [[nil] => LNil, [cons] => LCons]) : str_scope.

Open Scope str_scope.
Open Scope list_scope.

Definition code (c : ascii) : N := N_of_ascii c.

Definition between (lo hi n : N) : bool := ((lo <=? n) && (n <=? hi))%N.

(** [str.isspace] on one character, which is also the regex class [\s]:
    TAB..CR, FS..US, SPACE, NEL (0x85) and NBSP (0xA0). *)
Definition isspace (c : ascii) : bool :=
  let n := code c in
  between 9 13 n || between 28 32 n || (n =? 133)%N || (n =? 160)%N.

(** Upper-case letters: A-Z and the Latin-1 capitals (0xC0-0xDE but 0xD7). *)
Definition isupper (c : ascii) : bool :=
  let n := code c in
  between 65 90 n || between 192 214 n || between 216 222 n.

(** Alphanumeric characters ([str.isalnum]): ASCII letters and digits, the
    Latin-1 letters, the superscript digits and the vulgar fractions. *)
Definition isalnum (c : ascii) : bool :=
  let n := code c in
  between 48 57 n || between 65 90 n || between 97 122 n
  || (n =? 170)%N || (n =? 181)%N || (n =? 186)%N
  || between 178 179 n || (n =? 185)%N || between 188 190 n
  || between 192 214 n || between 216 246 n || between 248 255 n.

(** The regex class [\w]: alphanumeric or underscore. *)
Definition isword (c : ascii) : bool := isalnum c || (c =? "_")%char.

Definition lower_char (c : ascii) : ascii :=
  if isupper c then ascii_of_N (code c + 32) else c.

(** [s.lower()] *)
Definition lower (s : str) : str := map lower_char s.

(** [s.startswith(p)] *)
Fixpoint startswith (s p : str) {struct p} : bool :=
  match p with
  | [] => true
  | a :: p' =>
      match s with
      | [] => false
      | b :: s' => (a =? b)%char && startswith s' p'
      end
  end.

(** [sub in s] *)
Fixpoint py_in (sub s : str) {struct s} : bool :=
  startswith s sub ||
  match s with
  | [] => false
  | _ :: t => py_in sub t
  end.

(** [s.find(sub)], with [None] for Python's -1 *)
Fixpoint find (s sub : str) {struct s} : option nat :=
  if startswith s sub then Some 0
  else match s with
       | [] => None
       | _ :: t => option_map S (find t sub)
       end.

(** [s.split(sep)[0]] for a non-empty [sep]: the text before the first
    occurrence of [sep], or all of [s] when there is none. *)
Fixpoint split_head (s sep : str) {struct s} : str :=
  if startswith s sep then []
  else match s with
       | [] => []
       | c :: t => c :: split_head t sep
       end.

(** [s.replace(old, new)] scans left to right; at an occurrence of [old] it
    emits [new] and resumes after the occurrence.  [skip] counts the
    characters of the current occurrence still to pass over. *)
Fixpoint replace_from (old new : str) (skip : nat) (s : str) {struct s} : str :=
  match s with
  | [] => []
  | c :: t =>
      match skip with
      | S k => replace_from old new k t
      | O => if startswith s old
             then new ++ replace_from old new (length old - 1) t
             else c :: replace_from old new 0 t
      end
  end.

Definition replace (s old new : str) : str :=
  match old with
  | [] => new ++ flat_map (fun c => c :: new) s
  | _ :: _ => replace_from old new 0 s
  end.

Definition push_word (w : str) (ws : list str) : list str :=
  match w with
  | [] => ws
  | _ :: _ => w :: ws
  end.

(** One right-to-left pass of [s.split()]: the word still open at the left
    end, and the words already closed. *)
Fixpoint split_scan (s : str) : str * list str :=
  match s with
  | [] => ([], [])
  | c :: t =>
      let (w, ws) := split_scan t in
      if isspace c then ([], push_word w ws) else (c :: w, ws)
  end.

(** [s.split()]: the maximal runs of non-whitespace characters *)
Definition split_ws (s : str) : list str :=
  let (w, ws) := split_scan s in push_word w ws.

(** [sep.join(ws)] *)
Fixpoint join (sep : str) (ws : list str) : str :=
  match ws with
  | [] => []
  | [w] => w
  | w :: ws' => w ++ sep ++ join sep ws'
  end.

Fixpoint lstrip (s : str) : str :=
  match s with
  | [] => []
  | c :: t => if isspace c then lstrip t else s
  end.

Definition rstrip (s : str) : str := rev (lstrip (rev s)).

(** [s.strip()] *)
Definition strip (s : str) : str := rstrip (lstrip s).

Definition str_eqb (a b : str) : bool :=
  if list_eq_dec ascii_dec a b then true else false.

(** [p] has a border of length [k] when its first [k] characters are also
    its last [k]; two occurrences of an unbordered string cannot overlap. *)
Definition border (p : str) (k : nat) : bool :=
  str_eqb (firstn k p) (skipn (length p - k) p).

Definition unbordered (p : str) : bool :=
  forallb (fun k => negb (border p k)) (seq 1 (length p - 1)).

End PyStr.
Export PyStr.

(* ================================================================== *)
(** * Python values and exceptions *)

Module PyVal.

(** The values [json.load] and [response.json()] produce. *)
#[warnings="-register-all"]
Inductive pyval :=
| PNone
| PBool (b : bool)
| PInt (z : Z)
| PFloat (f : SpecFloat.spec_float)
| PStr (s : str)
| PList (l : list pyval)
| PDict (d : list (str * pyval)).

Definition float_is_zero (f : SpecFloat.spec_float) : bool :=
  match f with
  | SpecFloat.S754_zero _ => true
  | _ => false
  end.

(** Truth value of [v] in [if v:] and [if not v:]. *)
Definition truthy (v : pyval) : bool :=
  match v with
  | PNone => false
  | PBool b => b
  | PInt z => negb (z =? 0)%Z
  | PFloat f => negb (float_is_zero f)
  | PStr s => negb (str_eqb s "")
  | PList l => match l with [] => false | _ => true end
  | PDict d => match d with [] => false | _ => true end
  end.

(** [d.get(key, default)] on a dict kept as an association list. *)
Fixpoint dict_get (d : list (str * pyval)) (key : str) (default : pyval) : pyval :=
  match d with
  | [] => default
  | (k, v) :: d' => if str_eqb k key then v else dict_get d' key default
  end.

(** [key in d] *)
Definition dict_has (d : list (str * pyval)) (key : str) : bool :=
  existsb (fun kv => str_eqb (fst kv) key) d.

(** What [for x in v] visits: the elements of a list, the keys of a dict,
    the characters of a string; other values are not iterable. *)
Definition py_iter (v : pyval) : option (list pyval) :=
  match v with
  | PList l => Some l
  | PDict d => Some (map (fun kv => PStr (fst kv)) d)
  | PStr s => Some (map (fun c => PStr [c]) s)
  | _ => None
  end.

Inductive exn :=
| TypeError | AttributeError | ValueError | OverflowError | OSError.

Inductive result (A : Type) :=
| Ok (a : A)
| Raise (e : exn).

Arguments Ok {A} a.
Arguments Raise {A} e.

Definition bind_result {A B} (r : result A) (k : A -> result B) : result B :=
  match r with
  | Ok a => k a
  | Raise e => Raise e
  end.

End PyVal.
Export PyVal.

(* ================================================================== *)
(** * json-to-csv-converter.py *)

Module Converter.

Definition LF : str := ["010"%char].

Definition sections_to_remove : list str :=
  [ "### Story"; "### Product Details"; "### Care"; "### Shipping";
    "### Returns"; "Customer Reviews"; "Write a Review"; "Shipping";
    "Returns"; "Easy 30 Day Returns"; "In stock. Ready to ship.";
    "Translation missing:"; "Add To Bag"; "Your email address";
    "Want early access"; "Ships "; "Most in-stock items";
    "Exchanges and returns"; "White glove delivery"; "For more information";
    "Customer Photos"; "Ask a Question"; "Based on"; "Reviews";
    "Was this helpful?"; "United States"; "Loading more..."; "Filter Reviews:";
    "Sort" ].

(** One turn of the loop of lines 49-51. *)
Definition cut_at (clean_desc marker : str) : str :=
  if py_in marker clean_desc then split_head clean_desc marker else clean_desc.

(** Lines 48-51: the markers are tried one after the other, each on what the
    earlier ones have left. *)
Definition truncate_sections (description : str) : str :=
  fold_left cut_at sections_to_remove description.

(** Lines 53-56. *)
Definition collapse_whitespace (clean_desc : str) : str :=
  let clean_desc := replace (replace clean_desc (LF ++ LF) " ") LF " " in
  let clean_desc := join " " (split_ws clean_desc) in
  strip clean_desc.

(** [clean_description]: a falsy argument gives the empty string; a string is
    truncated and its whitespace collapsed; any other value fails inside the
    marker loop ([in] on a number) or at [.replace]/[.split] (list, dict). *)
Definition clean_description (description : pyval) : result str :=
  if negb (truthy description) then Ok ""
  else match description with
       | PStr d => Ok (collapse_whitespace (truncate_sections d))
       | PList _ | PDict _ => Raise AttributeError
       | _ => Raise TypeError
       end.

Definition was_null : str := " (was null)".

(** [clean_price] *)
Definition clean_price (price : pyval) : result str :=
  if negb (truthy price) then Ok ""
  else match price with
       | PStr p => Ok (replace p was_null "")
       | _ => Raise AttributeError
       end.

(** Line 84: the CSV header. *)
Definition fieldnames : list str :=
  [ "Name"; "Price"; "Description of product"; "Original URL"; "Keywords";
    "Stretch goals"; "Alternative sizes or colors available" ].

(** Lines 100-108: the row dict of one product; [product.get] needs a dict. *)
Definition make_row (product : pyval) : result (list (str * pyval)) :=
  match product with
  | PDict p =>
      let name := dict_get p "Name" (PStr "") in
      bind_result (clean_price (dict_get p "Price" (PStr ""))) (fun price =>
      bind_result (clean_description (dict_get p "Description of product" (PStr "")))
        (fun description =>
      Ok [ ("Name", name);
           ("Price", PStr price);
           ("Description of product", PStr description);
           ("Original URL", dict_get p "Original URL" (PStr ""));
           ("Keywords", dict_get p "Keywords" (PStr ""));
           ("Stretch goals", dict_get p "Stretch goals" (PStr ""));
           ("Alternative sizes or colors available",
            dict_get p "Alternative sizes or colors available" (PStr "")) ]))
  | _ => Raise AttributeError
  end.

(** A CSV file is kept as its records, each the list of its cells before
    the [csv] module renders them. *)
Definition record := list pyval.

(** [csv.DictWriter]: a row dict is written in the order of [fieldnames],
    a missing key as the empty string. *)
Definition dict_to_list (fields : list str) (row : list (str * pyval)) : record :=
  map (fun f => dict_get row f (PStr "")) fields.

Definition header (fields : list str) : record := map PStr fields.

(** Lines 99-109: rows are appended until a product fails. *)
Fixpoint write_rows (products : list pyval) (csvfile : list record)
  : list record * option exn :=
  match products with
  | [] => (csvfile, None)
  | product :: rest =>
      match make_row product with
      | Ok row => write_rows rest (csvfile ++ [dict_to_list fieldnames row])
      | Raise e => (csvfile, Some e)
      end
  end.

Inductive conversion :=
| NoProducts                               (* line 80: nothing is written *)
| Converted (csvfile : list record) (n : nat)   (* line 111 *)
| Failed (csvfile : list record) (e : exn).     (* line 114: what was written so far *)

(** [convert_citizenry_json_to_csv], from the value [json.load] returned. *)
Definition convert_citizenry_json_to_csv (products : pyval) : conversion :=
  if negb (truthy products) then NoProducts
  else
    let csvfile := [header fieldnames] in
    match py_iter products with
    | None => Failed csvfile TypeError
    | Some ps =>
        match write_rows ps csvfile with
        | (csvfile', None) => Converted csvfile' (length ps)
        | (csvfile', Some e) => Failed csvfile' e
        end
    end.

(** The earliest offset at which any marker occurs in [text] (the reading
    of the truncation as one search for the first marker). *)
Definition min_offset (a b : option nat) : option nat :=
  match a, b with
  | Some x, Some y => Some (Nat.min x y)
  | Some x, None => Some x
  | None, o => o
  end.

Definition earliest_marker_offset (text : str) : option nat :=
  fold_right (fun marker acc => min_offset (find text marker) acc)
             None sections_to_remove.

Definition has_marker (text : str) : bool :=
  existsb (fun marker => py_in marker text) sections_to_remove.

End Converter.

(* ================================================================== *)
(** * citizenry_scraper.py *)

Module Scraper.

Definition BASE_URL : str := "https://www.the-citizenry.com".
Definition FIRECRAWL_API_URL : str := "https://api.firecrawl.dev/v1/scrape".

(** ** The remote side *)

(** The [Retry-After] header of a response, as line 68 reads it:
    [int(response.headers.get('Retry-After', 30))]. *)
Inductive retry_after_header :=
| NoRetryAfter                 (* absent: the default 30 *)
| RetryAfterSeconds (z : Z)    (* a value [int] converts to [z] *)
| RetryAfterOther.             (* a value [int] rejects, such as an HTTP date *)

Record response := {
  status_code : Z;
  retry_after : retry_after_header;
  json_body : option pyval     (* [None]: the body is not JSON *)
}.

(** What [requests.post] does: it returns a response or raises a
    [RequestException]. *)
Inductive outcome :=
| Responded (r : response)
| RequestException.

Inductive event :=
| Posted (url : str) (payload : pyval)
| Slept (seconds : Z).

(** The world the scraper runs in: [server] answers the n-th request of the
    run, [timer] tells whether the platform's clock takes a sleep of a given
    length (in seconds) asked as the n-th event of the run, [posts] counts
    the requests sent, [events] is the history of requests and sleeps,
    oldest first. *)
Record world := {
  server : nat -> str -> pyval -> outcome;
  timer : nat -> Z -> bool;
  posts : nat;
  events : list event
}.

(** ** Effects: state passing with exceptions *)

Definition M (A : Type) : Type := world -> result A * world.

Definition ret {A} (a : A) : M A := fun w => (Ok a, w).

Definition raise {A} (e : exn) : M A := fun w => (Raise e, w).

Definition bind {A B} (m : M A) (k : A -> M B) : M B :=
  fun w =>
    match m w with
    | (Ok a, w') => k a w'
    | (Raise e, w') => (Raise e, w')
    end.

Notation "x <- m ;; k" := (bind m (fun x => k))
  (at level 61, m at next level, right associativity).
Notation "m ;;; k" := (bind m (fun _ => k))
  (at level 61, right associativity).

(** [requests.post(url, headers=headers, json=payload, timeout=120)] *)
Definition post (url : str) (payload : pyval) : M outcome :=
  fun w =>
    (Ok (server w (posts w) url payload),
     {| server := server w;
        timer := timer w;
        posts := S (posts w);
        events := events w ++ [Posted url payload] |}).

(** The longest sleep, in seconds, whose length in nanoseconds fits the
    signed 64-bit integer [time.sleep] converts it to: 9223372036 is the
    quotient of 2^63 - 1 by 10^9. *)
Definition SLEEP_MAX : Z := 9223372036.

(** [time.sleep(seconds)] on an integer: a negative length is rejected with
    [ValueError], a length beyond [SLEEP_MAX] with [OverflowError], and a
    length the platform's clock does not take (one that carries the clock
    past its range) with [OSError]. *)
Definition sleep (seconds : Z) : M unit :=
  fun w =>
    if (seconds <? 0)%Z then (Raise ValueError, w)
    else if (SLEEP_MAX <? seconds)%Z then (Raise OverflowError, w)
    else if timer w (length (events w)) seconds then
      (Ok tt,
       {| server := server w;
          timer := timer w;
          posts := posts w;
          events := events w ++ [Slept seconds] |})
    else (Raise OSError, w).

(** Line 68. *)
Definition wait_time_of (r : response) : M Z :=
  match retry_after r with
  | NoRetryAfter => ret 30%Z
  | RetryAfterSeconds z => ret z
  | RetryAfterOther => raise ValueError
  end.

(** ** The retry client *)

(** Lines 63-86, the loop [for attempt in range(max_retries)] from the
    iteration [attempt] on, with [remaining] iterations left. *)
Fixpoint retry_loop (url : str) (payload : pyval) (remaining attempt : nat)
  : M (option response) :=
  match remaining with
  | O => ret None
  | S remaining' =>
      o <- post url payload ;;
      match o with
      | Responded r =>
          if (status_code r =? 429)%Z then
            wait_time <- wait_time_of r ;;
            sleep wait_time ;;;
            retry_loop url payload remaining' (S attempt)
          else if (500 <=? status_code r)%Z then
            sleep (30 * 2 ^ Z.of_nat attempt)%Z ;;;
            retry_loop url payload remaining' (S attempt)
          else ret (Some r)
      | RequestException =>
          sleep (30 * 2 ^ Z.of_nat attempt)%Z ;;;
          retry_loop url payload remaining' (S attempt)
      end
  end.

Definition make_request_with_retry (url : str) (payload : pyval)
  (max_retries : nat) : M (option response) :=
  retry_loop url payload max_retries 0.

Definition default_max_retries : nat := 3.

(** ** URL discovery *)

Definition collection_urls : list str :=
  map (fun path => BASE_URL ++ path)
    [ "/collections/all"; "/collections/accents"; "/collections/baskets";
      "/collections/bedding"; "/collections/furniture";
      "/collections/lighting"; "/collections/rugs"; "/collections/pillows";
      "/collections/throws"; "/collections/tabletop";
      "/collections/wall-art"; "/collections/mirrors" ].

Definition dquote : str := ["034"%char].

Definition collection_prompt : str :=
  "Find all product links on this page. Look for URLs containing '/products/'. Return as JSON: {"
  ++ dquote ++ "product_urls" ++ dquote ++ ": [" ++ dquote ++ "url1" ++ dquote
  ++ ", " ++ dquote ++ "url2" ++ dquote ++ "]}".

Definition fallback_prompt : str :=
  "Find all links to product pages (containing '/products/'). Return as JSON: {"
  ++ dquote ++ "urls" ++ dquote ++ ": [" ++ dquote ++ "url1" ++ dquote
  ++ ", " ++ dquote ++ "url2" ++ dquote ++ "]}".

Definition scrape_payload (url prompt : str) : pyval :=
  PDict [ ("url", PStr url);
          ("formats", PList [PStr "json"]);
          ("onlyMainContent", PBool true);
          ("jsonOptions",
           PDict [ ("prompt", PStr prompt);
                   ("temperature", PFloat (SpecFloat.S754_zero false)) ]) ].

(** Lines 125-126 and 178-179: [response.json().get('data', {})], then the
    object under ['json'] when there is one.  Each step needs a dict. *)
Definition product_data_of (r : response) : result (list (str * pyval)) :=
  match json_body r with
  | None => Raise ValueError
  | Some (PDict top) =>
      match dict_get top "data" (PDict []) with
      | PDict data =>
          if dict_has data "json" then
            match dict_get data "json" (PDict []) with
            | PDict product_data => Ok product_data
            | _ => Raise AttributeError
            end
          else Ok data
      | PStr _ | PList _ => Raise AttributeError
      | _ => Raise TypeError
      end
  | Some _ => Raise AttributeError
  end.

Definition str_dec : forall a b : str, {a = b} + {a <> b} :=
  list_eq_dec ascii_dec.

(** Lines 132-133 and 185-186. *)
Definition qualify (url : str) : str :=
  if startswith url "/" then BASE_URL ++ url else url.

(** Lines 131-135, one turn of the loop over [urls].  A Python [set] is kept
    as a duplicate-free list; Python fixes no order for it, and nothing below
    depends on the order. *)
Definition add_product_url (all_product_urls : set str) (url : pyval) : set str :=
  match url with
  | PStr u =>
      if truthy url then
        let u := qualify u in
        if py_in "/products/" u then set_add str_dec u all_product_urls
        else all_product_urls
      else all_product_urls
  | _ => all_product_urls
  end.

(** Lines 124-140: the [try] block; an exception leaves the set as it is. *)
Definition harvest (r : response) (all_product_urls : set str) : set str :=
  match product_data_of r with
  | Raise _ => all_product_urls
  | Ok product_data =>
      match py_iter (dict_get product_data "product_urls" (PList [])) with
      | None => all_product_urls
      | Some urls => fold_left add_product_url urls all_product_urls
      end
  end.

(** Lines 109-142.  The test [response and response.status_code == 200]
    holds exactly for a response with status 200 (a [requests] response is
    true when its status is below 400). *)
Fixpoint scan_collections (collections : list str) (all_product_urls : set str)
  : M (set str) :=
  match collections with
  | [] => ret all_product_urls
  | collection_url :: rest =>
      response <- make_request_with_retry FIRECRAWL_API_URL
                    (scrape_payload collection_url collection_prompt)
                    default_max_retries ;;
      let all_product_urls :=
        match response with
        | Some r => if (status_code r =? 200)%Z then harvest r all_product_urls
                    else all_product_urls
        | None => all_product_urls
        end in
      sleep 1 ;;;
      scan_collections rest all_product_urls
  end.

(** Lines 152-155: [url.split('?')[0]] into a fresh set. *)
Definition strip_queries (product_urls : list str) : set str :=
  fold_left (fun unique_urls url => set_add str_dec (split_head url "?") unique_urls)
            product_urls (empty_set str).

Section Discovery.

(** [str(v)] of a value that is not a string (the text Python prints for a
    number, a list, a dict, ...). *)
Variable py_repr : pyval -> str.

Definition py_str (v : pyval) : str :=
  match v with
  | PStr s => s
  | _ => py_repr v
  end.

(** Lines 183-187.  [url.startswith] fails on a value that is not a string. *)
Fixpoint collect_fallback (urls : list pyval) (product_urls : list str)
  : result (list str) :=
  match urls with
  | [] => Ok product_urls
  | url :: rest =>
      if truthy url && py_in "/products/" (py_str url) then
        match url with
        | PStr u => collect_fallback rest (product_urls ++ [qualify u])
        | _ => Raise AttributeError
        end
      else collect_fallback rest product_urls
  end.

(** Lines 177-189, the [try] block. *)
Definition fallback_urls_of (r : response) : result (list str) :=
  bind_result (product_data_of r) (fun product_data =>
    match py_iter (dict_get product_data "urls" (PList [])) with
    | None => Raise TypeError
    | Some urls => collect_fallback urls []
    end).

Definition discover_fallback_urls : M (list str) :=
  response <- make_request_with_retry FIRECRAWL_API_URL
                (scrape_payload BASE_URL fallback_prompt)
                default_max_retries ;;
  match response with
  | Some r =>
      if (status_code r =? 200)%Z then
        match fallback_urls_of r with
        | Ok product_urls => ret product_urls
        | Raise _ => ret []
        end
      else ret []
  | None => ret []
  end.

Definition discover_product_urls : M (list str) :=
  all_product_urls <- scan_collections collection_urls (empty_set str) ;;
  let product_urls : list str := all_product_urls in
  match product_urls with
  | [] => discover_fallback_urls
  | _ :: _ => ret (strip_queries product_urls)
  end.

End Discovery.

(** ** Text helpers *)

Definition keywords : list str :=
  [ "Fairtrade"; "FSC"; "Handmade"; "Artisan"; "Sustainable"; "Organic";
    "Eco-friendly" ].

(** [extract_keywords] *)
Definition extract_keywords (text : str) : list str :=
  if negb (truthy (PStr text)) then []
  else
    let text_lower := lower text in
    fold_left (fun found_keywords keyword =>
                 if py_in (lower keyword) text_lower
                 then found_keywords ++ [keyword]
                 else found_keywords)
              keywords [].

(** [re.sub] with a pattern that is one character class: every character
    of the class is a match. *)
Definition re_sub_class (cls : ascii -> bool) (repl s : str) : str :=
  flat_map (fun c => if cls c then repl else [c]) s.

(** [re.sub] with a pattern [cls+]: a match starts at the first character of
    the class and, being greedy, takes the whole run. *)
Fixpoint re_sub_runs (cls : ascii -> bool) (repl s : str) {struct s} : str :=
  match s with
  | [] => []
  | c :: t => if cls c then repl ++ re_sub_rest cls repl t
              else c :: re_sub_runs cls repl t
  end
with re_sub_rest (cls : ascii -> bool) (repl s : str) {struct s} : str :=
  match s with
  | [] => []
  | c :: t => if cls c then re_sub_rest cls repl t
              else c :: re_sub_runs cls repl t
  end.

(** The class [[^\w\s-]] of line 215. *)
Definition not_word_space_hyphen (c : ascii) : bool :=
  negb (isword c || isspace c || (c =? "-")%char).

(** The class [[-\s]] of line 216. *)
Definition hyphen_or_space (c : ascii) : bool :=
  (c =? "-")%char || isspace c.

(** [clean_filename]; [re.sub] raises [TypeError] on a value that is not a
    string. *)
Definition clean_filename (name : pyval) : result str :=
  if negb (truthy name) then Ok "unknown_product"
  else match name with
       | PStr n =>
           let cleaned := re_sub_class not_word_space_hyphen "" n in
           let cleaned := re_sub_runs hyphen_or_space "_" cleaned in
           Ok (firstn 50 cleaned)
       | _ => Raise TypeError
       end.

(** Lines 300-303 of [scrape_product], on price strings; [None] is an
    original price the page does not give (JSON null). *)
Definition price_display (current_price : str) (original_price : option str) : str :=
  match original_price with
  | Some original =>
      if truthy (PStr original) && negb (str_eqb original current_price)
      then current_price ++ " (was " ++ original ++ ")"
      else current_price
  | None => current_price
  end.


(** Line 339: the columns [save_to_csv] writes. *)
Definition fieldnames : list str :=
  [ "Name"; "Price"; "Description of product"; "Original URL"; "Keywords";
    "Stretch goals"; "Alternative sizes or colors available" ].

End Scraper.

(* ================================================================== *)
(** * citizenry_scraper.py: the CSV export *)

Module CsvExport.
Import Scraper.

(** Lines 353-355 of [save_to_csv]: the row dict of one product, built with
    [product.get(field, '')] for each column, as the writer lays it out. *)
Definition save_row (product : pyval) : result Converter.record :=
  match product with
  | PDict p =>
      let row := map (fun field => (field, dict_get p field (PStr ""))) fieldnames in
      Ok (Converter.dict_to_list fieldnames row)
  | _ => Raise AttributeError
  end.

Fixpoint save_rows (products : list pyval) (csvfile : list Converter.record)
  : list Converter.record * option exn :=
  match products with
  | [] => (csvfile, None)
  | product :: rest =>
      match save_row product with
      | Ok row => save_rows rest (csvfile ++ [row])
      | Raise e => (csvfile, Some e)
      end
  end.

Inductive saved :=
| NothingSaved                                   (* line 335: no file *)
| Saved (csvfile : list Converter.record)
| SaveFailed (csvfile : list Converter.record) (e : exn).

(** [save_to_csv]; an exception is not caught here, it leaves the file with
    what was written. *)
Definition save_to_csv (products : pyval) : saved :=
  if negb (truthy products) then NothingSaved
  else
    let csvfile := [Converter.header fieldnames] in
    match py_iter products with
    | None => SaveFailed csvfile TypeError
    | Some ps =>
        match save_rows ps csvfile with
        | (csvfile', None) => Saved csvfile'
        | (csvfile', Some e) => SaveFailed csvfile' e
        end
    end.

End CsvExport.

(* ================================================================== *)
(** * Reference definitions

    The notions the properties below are stated with: what the text helpers
    are compared against, the worlds the retry client and the discovery are
    run in, and the shapes of their results. *)

(** ** Words and trimmed strings *)

Module WhitespaceSpec.

Import PyStr.

Definition nonspace (w : str) : Prop := Forall (fun c => isspace c = false) w.

(** A word of [s.split()]: not empty, no whitespace in it. *)
Definition is_word (w : str) : Prop := w <> [] /\ nonspace w.

Definition head_ok (s : str) : Prop :=
  match s with
  | [] => True
  | c :: _ => isspace c = false
  end.

End WhitespaceSpec.

(** ** What the converter is expected to write *)

Module ConverterSpec.

Import Converter.



(** The CSV record of a product: its fields in header order, price and
    description cleaned. *)
Definition record_of (product : pyval) (row : record) : Prop :=
  exists p price description,
    product = PDict p /\
    clean_price (dict_get p "Price" (PStr "")) = Ok price /\
    clean_description (dict_get p "Description of product" (PStr "")) = Ok description /\
    row = [ dict_get p "Name" (PStr ""); PStr price; PStr description;
            dict_get p "Original URL" (PStr "");
            dict_get p "Keywords" (PStr "");
            dict_get p "Stretch goals" (PStr "");
            dict_get p "Alternative sizes or colors available" (PStr "") ].

End ConverterSpec.

(** ** Worlds and waiting times of the retry client *)

Module RetrySpec.

Import Scraper.

(** The world after one more request. *)
Definition after_post (w : world) (url : str) (payload : pyval) : world :=
  {| server := server w;
     timer := timer w;
     posts := S (posts w);
     events := events w ++ [Posted url payload] |}.

(** The world after a sleep. *)
Definition after_sleep (w : world) (seconds : Z) : world :=
  {| server := server w;
     timer := timer w;
     posts := posts w;
     events := events w ++ [Slept seconds] |}.

(** [time.sleep] takes a length of [seconds] whenever the run asks for it:
    the length is not negative, it is at most [SLEEP_MAX], and the
    platform's clock takes it at every point of the run. *)
Definition takes (w : world) (seconds : Z) : Prop :=
  (0 <= seconds <= SLEEP_MAX)%Z /\ forall n, timer w n seconds = true.

(** The requests of a history, oldest first. *)
Fixpoint requests_of (evs : list event) : list (str * pyval) :=
  match evs with
  | [] => []
  | Posted url payload :: rest => (url, payload) :: requests_of rest
  | Slept _ :: rest => requests_of rest
  end.

(** [w'] is [w] after the events [evs]: the same server and clock, the
    history longer by [evs], one more request counted for each request of
    [evs]. *)
Definition extends (w w' : world) (evs : list event) : Prop :=
  server w' = server w /\ timer w' = timer w /\
  events w' = events w ++ evs /\
  posts w' = posts w + length (requests_of evs).

(** The exceptions of the wait: [ValueError] from [int] or from a negative
    length, [OverflowError] and [OSError] from [time.sleep]. *)
Definition sleep_error (e : exn) : Prop :=
  e = ValueError \/ e = OverflowError \/ e = OSError.

(** A clock that takes every length. *)
Definition any_length : nat -> Z -> bool := fun _ _ => true.

(** The time line 68 computes when the header can be read: 30 seconds
    without a header, the header's value when it is a number that is not
    negative. *)
Definition header_wait (r : response) (seconds : Z) : Prop :=
  (retry_after r = NoRetryAfter /\ seconds = 30%Z) \/
  (retry_after r = RetryAfterSeconds seconds /\ (0 <= seconds)%Z).

(** A server that answers every request with the same response. *)
Definition constant_world (r : response) : world :=
  {| server := fun _ _ _ => Responded r;
     timer := any_length;
     posts := 0;
     events := [] |}.

Definition not_found : response :=
  {| status_code := 404; retry_after := NoRetryAfter; json_body := None |}.

(** A server that answers the n-th request with the n-th response of a
    list, and fails the requests beyond it. *)
Definition scripted_world (script : list response) : world :=
  {| server := fun n _ _ =>
                 match nth_error script n with
                 | Some r => Responded r
                 | None => RequestException
                 end;
     timer := any_length;
     posts := 0;
     events := [] |}.

Definition rate_limited (h : retry_after_header) : response :=
  {| status_code := 429; retry_after := h; json_body := None |}.

Definition ok_response : response :=
  {| status_code := 200; retry_after := NoRetryAfter; json_body := None |}.

Definition unavailable : response :=
  {| status_code := 503; retry_after := NoRetryAfter; json_body := None |}.

End RetrySpec.

(** ** Reference definitions for the text helpers *)

Module TextSpec.

Import Scraper.

(** [kw] matches the beginning of [s] when case is ignored. *)
Fixpoint ci_prefix (kw s : str) {struct kw} : bool :=
  match kw with
  | [] => true
  | k :: kw' =>
      match s with
      | [] => false
      | c :: s' => (lower_char k =? lower_char c)%char && ci_prefix kw' s'
      end
  end.

(** [kw] occurs in [text] at some offset when case is ignored. *)
Fixpoint ci_occurs (kw text : str) {struct text} : bool :=
  ci_prefix kw text ||
  match text with
  | [] => false
  | _ :: t => ci_occurs kw t
  end.

(** The characters line 215 keeps: word characters, whitespace, hyphen. *)
Definition kept (c : ascii) : bool :=
  isword c || isspace c || (c =? "-")%char.

(** The characters a file name has collapsed, one by one: the hyphen, the
    space, and the other whitespace below 256 (tab, line feed, vertical
    tab, form feed, carriage return, the four separators 28 to 31, next
    line, no-break space). *)
Definition separators : str :=
  [ "-"; " "; "009"; "010"; "011"; "012"; "013";
    "028"; "029"; "030"; "031"; "133"; "160" ]%char.

Definition is_separator (c : ascii) : bool :=
  existsb (fun x => (x =? c)%char) separators.

(** The maximal runs of a text: each block with its class, a block ending
    where the class changes. *)
Fixpoint runs (cls : ascii -> bool) (s : str) : list (bool * str) :=
  match s with
  | [] => []
  | c :: t =>
      match runs cls t with
      | (b, block) :: rest =>
          if Bool.eqb (cls c) b then (b, c :: block) :: rest
          else (cls c, [c]) :: (b, block) :: rest
      | [] => [(cls c, [c])]
      end
  end.

(** Every run of the class replaced by [repl], the other runs kept. *)
Definition collapse (repl : str) (blocks : list (bool * str)) : str :=
  flat_map (fun b : bool * str => if fst b then repl else snd b) blocks.

Definition collapse_runs (cls : ascii -> bool) (repl s : str) : str :=
  collapse repl (runs cls s).

(** Neighbouring blocks differ in class: the runs are maximal. *)
Fixpoint alternating (blocks : list (bool * str)) : Prop :=
  match blocks with
  | [] => True
  | b1 :: rest =>
      match rest with
      | [] => True
      | b2 :: _ => fst b1 <> fst b2
      end /\ alternating rest
  end.

End TextSpec.

(** ** Absolute URLs and the shape of discovered URLs *)

Module DiscoverySpec.

Import Scraper RetrySpec.

Definition is_alpha (c : ascii) : bool :=
  let n := code c in between 65 90 n || between 97 122 n.

Definition is_scheme_char (c : ascii) : bool :=
  let n := code c in
  between 65 90 n || between 97 122 n || between 48 57 n
  || (c =? "+")%char || (c =? "-")%char || (c =? ".")%char.

Fixpoint scheme_rest (s : str) : bool :=
  match s with
  | [] => false
  | c :: t => if (c =? ":")%char then true
              else is_scheme_char c && scheme_rest t
  end.

(** A URL is absolute when it starts with a scheme and a colon (RFC 3986:
    a letter, then letters, digits, "+", "-" or "."). *)
Definition is_absolute (url : str) : bool :=
  match url with
  | [] => false
  | c :: t => is_alpha c && scheme_rest t
  end.

(** A value the API listed during the run from [w] to [w']: the [k]-th
    request of the run was a scrape with [payload], the server answered it
    with a response of status 200, and the value is an item of what the
    product data of this response holds under [key]. *)
Definition served (w w' : world) (payload : pyval) (key : str) (v : pyval) : Prop :=
  exists k r product_data items evs,
    events w' = events w ++ evs /\
    nth_error (requests_of evs) k = Some (FIRECRAWL_API_URL, payload) /\
    server w (posts w + k) FIRECRAWL_API_URL payload = Responded r /\
    status_code r = 200%Z /\
    product_data_of r = Ok product_data /\
    py_iter (dict_get product_data key (PList [])) = Some items /\
    In v items.

(** A candidate of the primary path: a string the API listed under
    "product_urls" for one of the collections, not empty, which holds
    "/products/" once qualified; the candidate is the qualified string. *)
Definition candidate (w w' : world) (collections : list str) (url : str) : Prop :=
  exists s c,
    In c collections /\
    served w w' (scrape_payload c collection_prompt) "product_urls" (PStr s) /\
    s <> "" /\
    py_in "/products/" (qualify s) = true /\
    url = qualify s.

(** A URL of the primary path: a candidate cut at its first "?". *)
Definition primary_url (w w' : world) (url : str) : Prop :=
  py_in "?" url = false /\
  startswith url "/" = false /\
  exists s c,
    In c collection_urls /\
    served w w' (scrape_payload c collection_prompt) "product_urls" (PStr s) /\
    s <> "" /\
    py_in "/products/" (qualify s) = true /\
    url = split_head (qualify s) "?" /\
    (startswith s "/" = true \/ is_absolute s = true -> is_absolute url = true).

(** A URL of the fallback path: a string the API listed under "urls" in
    its answer to the fallback request, not empty, which holds "/products/";
    the URL is the qualified string. *)
Definition fallback_url (w w' : world) (url : str) : Prop :=
  py_in "/products/" url = true /\
  startswith url "/" = false /\
  exists s,
    served w w' (scrape_payload BASE_URL fallback_prompt) "urls" (PStr s) /\
    s <> "" /\
    py_in "/products/" s = true /\
    url = qualify s /\
    (startswith s "/" = true \/ is_absolute s = true -> is_absolute url = true).

Definition all_in (P : str -> Prop) (urls : list str) : Prop :=
  forall url, In url urls -> P url.

(** Stands for [str] on values that are not strings in the concrete runs,
    whose responses hold strings only: it is never consulted there. *)
Definition no_repr : pyval -> str := fun _ => "".

Definition json_response (key : str) (urls : list str) : response :=
  {| status_code := 200;
     retry_after := NoRetryAfter;
     json_body :=
       Some (PDict [("data", PDict [("json", PDict [(key, PList (map PStr urls))])])]) |}.

Definition not_found : response :=
  {| status_code := 404; retry_after := NoRetryAfter; json_body := None |}.

(** The n-th request gets [r]; every other request gets a 404. *)
Definition world_answering (n : nat) (r : response) : world :=
  {| server := fun k _ _ => if Nat.eqb k n then Responded r else Responded not_found;
     timer := RetrySpec.any_length;
     posts := 0;
     events := [] |}.

End DiscoverySpec.

(** ** Failing requests and backoff *)

Module BackoffSpec.
Import Scraper.

(** A request that calls for a retry with exponential backoff: a transport
    failure or a response with status 500 or more. *)
Definition failing (o : outcome) : Prop :=
  o = RequestException \/ exists r, o = Responded r /\ (500 <= status_code r)%Z.

(** The requests and sleeps of [remaining] failed attempts from the
    iteration [attempt] on. *)
Definition backoff_events (url : str) (payload : pyval) (attempt remaining : nat)
  : list event :=
  flat_map (fun k => [Posted url payload; Slept (30 * 2 ^ Z.of_nat k)])
           (seq attempt remaining).

End BackoffSpec.

(** ** Links the discovery looks for, and servers that never succeed *)

Module CrawlSpec.
Import Scraper RetrySpec.

(** The test of lines 131-134 on a string of the API. *)
Definition is_product_link (s : str) : bool :=
  negb (str_eqb s "") && py_in "/products/" (qualify s).

(** The test of line 184 on a string of the API. *)
Definition mentions_products (s : str) : bool :=
  negb (str_eqb s "") && py_in "/products/" s.

(** A server that never answers with status 200, and whose 429 responses
    carry a [Retry-After] header that gives a wait [time.sleep] takes. *)
Definition never_ok (w : world) : Prop :=
  forall n url payload r,
    server w n url payload = Responded r ->
    status_code r <> 200%Z /\
    (status_code r = 429%Z ->
     exists seconds, header_wait r seconds /\ takes w seconds).

(** [time.sleep] takes the fixed waits of the discovery: the pause of line
    142 and the backoff lengths of three attempts. *)
Definition patient (w : world) : Prop :=
  takes w 1 /\ takes w 30 /\ takes w 60 /\ takes w 120.

End CrawlSpec.

(** ** Cells of the scraper's CSV and settled records *)

Module ExportSpec.
Import Converter.

(** The cells of a product in column order, a missing field as the empty
    string. *)
Definition cells_of (p : list (str * pyval)) : record :=
  map (fun field => dict_get p field (PStr "")) fieldnames.

(** A field that holds a string, or is missing. *)
Definition string_field (p : list (str * pyval)) (key : str) (s : str) : Prop :=
  dict_get p key (PStr "") = PStr s.

(** A record the cleaners leave as it is: its price holds no " (was null)"
    and its description is cleaned to itself. *)
Definition settled (p : list (str * pyval)) : Prop :=
  (exists price, string_field p "Price" price /\ py_in was_null price = false) /\
  (exists d, string_field p "Description of product" d /\
             clean_description (PStr d) = Ok d).

Fixpoint total_length (ws : list str) : nat :=
  match ws with
  | [] => 0
  | w :: ws' => length w + 1 + total_length ws'
  end.

End ExportSpec.

(* ================================================================== *)
(** * Facts about the string operations *)

Module PyStrFacts.

Lemma startswith_iff (p s : str) :
  startswith s p = true <-> exists r, s = p ++ r.
Proof.
  revert s. induction p as [|a p IH]; intros s; simpl.
  - split; [intros _; now exists s | reflexivity].
  - destruct s as [|b s].
    + split; [discriminate | intros [r Hr]; discriminate].
    + rewrite andb_true_iff, Ascii.eqb_eq, IH. split.
      * intros [-> [r ->]]. now exists r.
      * intros [r Hr]. injection Hr as -> ->. split; [reflexivity | now exists r].
Qed.

Lemma startswith_app (p r : str) : startswith (p ++ r) p = true.
Proof. apply startswith_iff. now exists r. Qed.

Lemma startswith_nil (s : str) : startswith s [] = true.
Proof. reflexivity. Qed.

Lemma startswith_extend (s p r : str) :
  startswith s p = true -> startswith (s ++ r) p = true.
Proof.
  rewrite !startswith_iff. intros [q ->]. exists (q ++ r). now rewrite app_assoc.
Qed.

Lemma py_in_iff (sub s : str) :
  py_in sub s = true <-> exists a b, s = a ++ sub ++ b.
Proof.
  induction s as [|c s IH]; simpl.
  - rewrite orb_false_r, startswith_iff. split.
    + intros [r Hr]. now exists [], r.
    + intros [a [b H]]. destruct a; simpl in H.
      * now exists b.
      * discriminate.
  - rewrite orb_true_iff, startswith_iff, IH. split.
    + intros [[r Hr] | [a [b Hab]]].
      * now exists [], r.
      * exists (c :: a), b. now rewrite Hab.
    + intros [a [b Hab]]. destruct a as [|c' a]; simpl in Hab.
      * left. now exists b.
      * right. injection Hab as _ ->. now exists a, b.
Qed.

Lemma py_in_extend (sub s r : str) :
  py_in sub s = true -> py_in sub (s ++ r) = true.
Proof.
  rewrite !py_in_iff. intros [a [b ->]]. exists a, (b ++ r).
  now rewrite <- !app_assoc.
Qed.

Lemma py_in_absent_prefix (sub s r : str) :
  py_in sub (s ++ r) = false -> py_in sub s = false.
Proof.
  intros H. destruct (py_in sub s) eqn:E; [|reflexivity].
  now rewrite (py_in_extend _ _ r E) in H.
Qed.

Lemma py_in_absent_char (c : ascii) (p s : str) :
  ~ In c s -> py_in (c :: p) s = false.
Proof.
  intros H. destruct (py_in (c :: p) s) eqn:E; [|reflexivity].
  apply py_in_iff in E. destruct E as [a [b ->]].
  exfalso. apply H. apply in_or_app. right. now left.
Qed.

(** [split_head] keeps a prefix. *)
Lemma split_head_prefix (s sep : str) : exists r, s = split_head s sep ++ r.
Proof.
  induction s as [|c s [r IH]]; simpl.
  - destruct (startswith [] sep); now exists [].
  - destruct (startswith (c :: s) sep).
    + now exists (c :: s).
    + exists r. simpl. now rewrite <- IH.
Qed.

Lemma split_head_absent (s sep : str) :
  py_in sep s = false -> split_head s sep = s.
Proof.
  induction s as [|c s IH]; simpl; intros H.
  - now destruct (startswith [] sep).
  - apply orb_false_iff in H. destruct H as [-> H]. now rewrite IH.
Qed.

(** The kept prefix holds no occurrence of the separator. *)
Lemma split_head_clean (s sep : str) :
  sep <> [] -> py_in sep (split_head s sep) = false.
Proof.
  intros Hsep. induction s as [|c s IH]; simpl.
  - destruct sep; [contradiction|]. reflexivity.
  - destruct (startswith (c :: s) sep) eqn:E.
    + destruct sep; [contradiction|]. reflexivity.
    + cbn [py_in]. rewrite IH, orb_false_r.
      destruct (startswith (c :: split_head s sep) sep) eqn:E'; [|reflexivity].
      destruct (split_head_prefix s sep) as [r Hr].
      apply (startswith_extend _ _ r) in E'. simpl in E'.
      rewrite <- Hr in E'. congruence.
Qed.

(** [split_head] cuts at the offset [find] returns. *)
Lemma split_head_find (s sep : str) (n : nat) :
  find s sep = Some n -> split_head s sep = firstn n s.
Proof.
  revert n. induction s as [|c s IH]; simpl; intros n.
  - destruct (startswith [] sep); [|discriminate].
    intros H. injection H as <-. reflexivity.
  - destruct (startswith (c :: s) sep).
    + intros H. injection H as <-. reflexivity.
    + destruct (find s sep) as [k|]; [|discriminate].
      simpl. intros H. injection H as <-. simpl. now rewrite (IH k).
Qed.

Lemma find_none (s sep : str) : find s sep = None <-> py_in sep s = false.
Proof.
  induction s as [|c s IH]; simpl.
  - destruct (startswith [] sep); simpl; split; congruence.
  - destruct (startswith (c :: s) sep); simpl.
    + split; congruence.
    + rewrite <- IH. destruct (find s sep); simpl; split; congruence.
Qed.

(** ** [replace] *)

Lemma replace_from_skip (old new x rest : str) :
  replace_from old new (length x) (x ++ rest) = replace_from old new 0 rest.
Proof.
  induction x as [|c x IH]; simpl.
  - reflexivity.
  - exact IH.
Qed.

(** At an occurrence, the replacement is emitted and the scan goes on
    behind it. *)
Lemma replace_from_match (old new rest : str) :
  old <> [] ->
  replace_from old new 0 (old ++ rest) = new ++ replace_from old new 0 rest.
Proof.
  destruct old as [|a o]; [contradiction|]. intros _.
  pose proof (startswith_app (a :: o) rest) as H.
  change ((a :: o) ++ rest) with (a :: o ++ rest) in *.
  cbn [replace_from]. rewrite H. cbn [length].
  replace (S (length o) - 1) with (length o) by lia.
  now rewrite replace_from_skip.
Qed.

Lemma replace_from_step (old new : str) (c : ascii) (t : str) :
  startswith (c :: t) old = false ->
  replace_from old new 0 (c :: t) = c :: replace_from old new 0 t.
Proof. intros H. cbn [replace_from]. now rewrite H. Qed.

(** Without an occurrence nothing changes. *)
Lemma replace_from_absent (old new s : str) :
  py_in old s = false -> replace_from old new 0 s = s.
Proof.
  induction s as [|c s IH]; intros H.
  - reflexivity.
  - cbn [py_in] in H. apply orb_false_iff in H. destruct H as [H1 H2].
    rewrite replace_from_step by exact H1. now rewrite IH.
Qed.

Lemma replace_absent (s old new : str) :
  old <> [] -> py_in old s = false -> replace s old new = s.
Proof.
  intros Hne H. unfold replace. destruct old as [|a o] eqn:E; [contradiction|].
  now apply replace_from_absent.
Qed.

Lemma replace_match (rest old new : str) :
  old <> [] -> replace (old ++ rest) old new = new ++ replace rest old new.
Proof.
  intros Hne. unfold replace. destruct old as [|c o] eqn:E; [contradiction|].
  rewrite <- E. apply replace_from_match. now rewrite E.
Qed.

Lemma str_eqb_eq (a b : str) : str_eqb a b = true <-> a = b.
Proof.
  unfold str_eqb. destruct (list_eq_dec ascii_dec a b); split; congruence.
Qed.

Lemma str_eqb_refl (a : str) : str_eqb a a = true.
Proof. now apply str_eqb_eq. Qed.

Lemma str_eqb_neq (a b : str) : str_eqb a b = false <-> a <> b.
Proof.
  unfold str_eqb. destruct (list_eq_dec ascii_dec a b); split; congruence.
Qed.

(** A string that is both a proper suffix and a prefix of an unbordered
    string is empty. *)
Lemma unbordered_spec (p x y z : str) :
  unbordered p = true -> p = x ++ y -> p = y ++ z -> y = [] \/ x = [].
Proof.
  intros Hu Hxy Hyz.
  destruct y as [|c y]; [now left|]. destruct x as [|d x]; [now right|].
  exfalso. unfold unbordered in Hu. rewrite forallb_forall in Hu.
  specialize (Hu (length (c :: y))).
  assert (Hlen : length p = length (d :: x) + length (c :: y))
    by (rewrite Hxy; apply length_app).
  assert (Hin : In (length (c :: y)) (seq 1 (length p - 1))).
  { apply in_seq. simpl in *. lia. }
  specialize (Hu Hin). apply negb_true_iff in Hu.
  apply str_eqb_neq in Hu. apply Hu.
  replace (length p - length (c :: y)) with (length (d :: x)) by lia.
  rewrite Hxy at 2. rewrite skipn_app, Nat.sub_diag, skipn_all. simpl skipn.
  rewrite Hyz. rewrite firstn_app, Nat.sub_diag, firstn_all. simpl firstn.
  now rewrite app_nil_r.
Qed.

(** Around an occurrence of an unbordered [old], [replace] works on the two
    sides independently: no match can straddle the occurrence. *)
Lemma replace_from_around (old new : str) :
  unbordered old = true -> old <> [] ->
  forall a b,
    replace_from old new 0 (a ++ old ++ b) =
    replace_from old new 0 a ++ new ++ replace_from old new 0 b.
Proof.
  intros Hu Hne a b.
  remember (length a) as n eqn:Hn. revert a Hn.
  induction n as [n IH] using lt_wf_ind. intros a Hn.
  destruct a as [|c a].
  - simpl. now apply replace_from_match.
  - destruct (startswith (c :: a) old) eqn:E.
    + apply startswith_iff in E. destruct E as [r Hr]. rewrite Hr.
      rewrite <- app_assoc. rewrite !replace_from_match by exact Hne.
      rewrite (IH (length r)) with (a := r); [now rewrite app_assoc | | reflexivity].
      rewrite Hn, Hr, length_app. destruct old; [contradiction | simpl; lia].
    + assert (E' : startswith ((c :: a) ++ old ++ b) old = false).
      { destruct (startswith ((c :: a) ++ old ++ b) old) eqn:E2; [|reflexivity].
        exfalso. apply startswith_iff in E2. destruct E2 as [r Hr].
        apply app_eq_app in Hr. destruct Hr as [l [[H1 _] | [H1 H2]]].
        - rewrite H1, startswith_app in E. discriminate.
        - apply app_eq_app in H2. destruct H2 as [l' [[H2 _] | [H2 _]]].
          + destruct (unbordered_spec _ _ _ _ Hu H1 H2) as [-> | Hx]; [|discriminate].
            rewrite app_nil_r in H1. rewrite <- H1 in E.
            rewrite <- (app_nil_r old) in E at 1.
            rewrite startswith_app in E. discriminate.
          + apply (f_equal (@length ascii)) in H1.
            rewrite H2 in H1. rewrite !length_app in H1. simpl in H1. lia. }
      change ((c :: a) ++ old ++ b) with (c :: (a ++ old ++ b)) in *.
      rewrite !replace_from_step by assumption.
      simpl. f_equal. apply (IH (length a)); [simpl in Hn; lia | reflexivity].
Qed.

(** Deleting never lengthens. *)
Lemma replace_from_delete_length (old : str) (k : nat) (s : str) :
  length (replace_from old [] k s) <= length s.
Proof.
  revert k. induction s as [|c s IH]; intros k; simpl.
  - lia.
  - destruct k.
    + destruct (startswith (c :: s) old); simpl.
      * specialize (IH (length old - 1)). lia.
      * specialize (IH 0). lia.
    + specialize (IH k). lia.
Qed.

End PyStrFacts.

(* ================================================================== *)
(** * Facts about whitespace handling *)

Module WhitespaceFacts.

Import PyStrFacts WhitespaceSpec.

Lemma push_word_words (w : str) (ws : list str) :
  nonspace w -> Forall is_word ws -> Forall is_word (push_word w ws).
Proof.
  intros Hw Hws. destruct w; simpl; [assumption|].
  constructor; [split; [discriminate | assumption] | assumption].
Qed.

Lemma split_scan_words (s : str) :
  nonspace (fst (split_scan s)) /\ Forall is_word (snd (split_scan s)).
Proof.
  induction s as [|c s [IH1 IH2]]; simpl.
  - split; constructor.
  - destruct (split_scan s) as [w ws]. simpl in *.
    destruct (isspace c) eqn:E; simpl.
    + split; [constructor | now apply push_word_words].
    + split; [now constructor | assumption].
Qed.

Lemma split_ws_eq (s : str) :
  split_ws s = push_word (fst (split_scan s)) (snd (split_scan s)).
Proof. unfold split_ws. now destruct (split_scan s). Qed.

Lemma split_ws_words (s : str) : Forall is_word (split_ws s).
Proof.
  rewrite split_ws_eq. destruct (split_scan_words s). now apply push_word_words.
Qed.

Lemma split_scan_word_prefix (w rest : str) :
  nonspace w ->
  split_scan (w ++ rest) =
  (w ++ fst (split_scan rest), snd (split_scan rest)).
Proof.
  induction 1 as [|c w Hc Hw IH]; simpl.
  - now destruct (split_scan rest).
  - rewrite IH, Hc. reflexivity.
Qed.

Lemma split_scan_space (c : ascii) (rest : str) :
  isspace c = true -> split_scan (c :: rest) = ([], split_ws rest).
Proof.
  intros Hc. simpl. rewrite split_ws_eq.
  destruct (split_scan rest). now rewrite Hc.
Qed.

(** Splitting what [join] glued with single spaces gives the words back. *)
Lemma split_ws_join (ws : list str) :
  Forall is_word ws -> split_ws (join " " ws) = ws.
Proof.
  induction 1 as [|w ws [Hne Hw] Hws IH].
  - reflexivity.
  - destruct ws as [|w2 ws'].
    + simpl. rewrite split_ws_eq.
      rewrite <- (app_nil_r w) at 1 2. rewrite split_scan_word_prefix by assumption.
      simpl. rewrite app_nil_r. destruct w; [contradiction | reflexivity].
    + change (join " " (w :: w2 :: ws')) with (w ++ " " ++ join " " (w2 :: ws')).
      rewrite split_ws_eq, split_scan_word_prefix by assumption.
      change (" " ++ join " " (w2 :: ws')) with (" "%char :: join " " (w2 :: ws')).
      rewrite split_scan_space by reflexivity. rewrite IH. simpl.
      rewrite app_nil_r. destruct w; [contradiction | reflexivity].
Qed.

Lemma in_join (c : ascii) (sep : str) (ws : list str) :
  In c (join sep ws) -> In c sep \/ exists w, In w ws /\ In c w.
Proof.
  induction ws as [|w ws IH]; [contradiction|].
  destruct ws as [|w2 ws'].
  - simpl. intros H. right. exists w. auto.
  - change (join sep (w :: w2 :: ws')) with (w ++ sep ++ join sep (w2 :: ws')).
    rewrite !in_app_iff. intros [H | [H | H]].
    + right. exists w. split; [now left | assumption].
    + now left.
    + destruct (IH H) as [H' | [w' [Hin Hc]]]; [now left|].
      right. exists w'. split; [now right | assumption].
Qed.

(** No whitespace but the single spaces survives in the joined words. *)
Lemma join_words_space (c : ascii) (ws : list str) :
  Forall is_word ws -> In c (join " " ws) -> isspace c = true -> c = " "%char.
Proof.
  intros Hws Hin Hc. apply in_join in Hin. destruct Hin as [[<- | []] | [w [Hw Hcw]]].
  - reflexivity.
  - rewrite Forall_forall in Hws. destruct (Hws w Hw) as [_ Hns].
    unfold nonspace in Hns. rewrite Forall_forall in Hns.
    rewrite (Hns c Hcw) in Hc. discriminate.
Qed.

Lemma lstrip_head_ok (s : str) : head_ok s -> lstrip s = s.
Proof. destruct s as [|c s]; simpl; [reflexivity | now intros ->]. Qed.

Lemma head_ok_app (s r : str) : s <> [] -> head_ok s -> head_ok (s ++ r).
Proof. destruct s; [contradiction | simpl; auto]. Qed.

Lemma join_not_empty (sep w : str) (ws : list str) :
  w <> [] -> join sep (w :: ws) <> [].
Proof.
  intros Hw. destruct ws; simpl; [assumption|].
  destruct w; [contradiction | discriminate].
Qed.

Lemma head_ok_join (ws : list str) :
  Forall is_word ws -> head_ok (join " " ws).
Proof.
  intros H. destruct H as [|w ws [Hne Hw] Hws]; [exact I|].
  assert (Hh : head_ok w) by (destruct Hw; simpl; auto).
  destruct ws as [|w2 ws']; [exact Hh|].
  change (join " " (w :: w2 :: ws')) with (w ++ " " ++ join " " (w2 :: ws')).
  now apply head_ok_app.
Qed.

Lemma head_ok_rev_word (w : str) : nonspace w -> head_ok (rev w).
Proof.
  intros Hw. assert (H : nonspace (rev w)).
  { unfold nonspace in *. rewrite Forall_forall in *. intros c Hc.
    apply Hw. now apply in_rev. }
  destruct H; simpl; auto.
Qed.

Lemma head_ok_rev_join (ws : list str) :
  Forall is_word ws -> head_ok (rev (join " " ws)).
Proof.
  induction 1 as [|w ws [Hne Hw] Hws IH]; [exact I|].
  destruct ws as [|w2 ws'].
  - simpl. now apply head_ok_rev_word.
  - change (join " " (w :: w2 :: ws')) with (w ++ " " ++ join " " (w2 :: ws')).
    rewrite !rev_app_distr, <- app_assoc. apply head_ok_app; [|exact IH].
    intros Hrev. apply (f_equal (@rev ascii)) in Hrev.
    rewrite rev_involutive in Hrev.
    inversion Hws as [|? ? [Hne2 _] _]; subst.
    exact (join_not_empty " " w2 ws' Hne2 Hrev).
Qed.

(** Joined words have nothing to strip. *)
Lemma strip_join (ws : list str) :
  Forall is_word ws -> strip (join " " ws) = join " " ws.
Proof.
  intros H. unfold strip, rstrip.
  rewrite (lstrip_head_ok _ (head_ok_join ws H)).
  rewrite (lstrip_head_ok _ (head_ok_rev_join ws H)).
  apply rev_involutive.
Qed.

End WhitespaceFacts.

(* ================================================================== *)
(** * Properties of the converter *)

Module ConverterProps.

Import Converter PyStrFacts WhitespaceSpec WhitespaceFacts ConverterSpec.

(** ** Truncation at the section markers *)

Lemma markers_not_empty : Forall (fun marker => marker <> []) sections_to_remove.
Proof.
  apply Forall_forall. intros marker Hin ->.
  assert (H : existsb (fun m => str_eqb m []) sections_to_remove = false)
    by (vm_compute; reflexivity).
  assert (H' : existsb (fun m => str_eqb m []) sections_to_remove = true).
  { apply existsb_exists. exists []. split; [exact Hin | reflexivity]. }
  congruence.
Qed.

Lemma cut_at_prefix (d marker : str) : exists r, d = cut_at d marker ++ r.
Proof.
  unfold cut_at. destruct (py_in marker d).
  - apply split_head_prefix.
  - exists []. now rewrite app_nil_r.
Qed.

Lemma cut_prefix (markers : list str) (d : str) :
  exists r, d = fold_left cut_at markers d ++ r.
Proof.
  revert d. induction markers as [|m ms IH]; intros d; simpl.
  - exists []. now rewrite app_nil_r.
  - destruct (IH (cut_at d m)) as [r Hr]. destruct (cut_at_prefix d m) as [r' Hr'].
    exists (r ++ r'). rewrite app_assoc, <- Hr. exact Hr'.
Qed.

Lemma cut_at_clean (d marker : str) :
  marker <> [] -> py_in marker (cut_at d marker) = false.
Proof.
  intros Hne. unfold cut_at. destruct (py_in marker d) eqn:E.
  - now apply split_head_clean.
  - exact E.
Qed.

(** What the loop leaves holds none of the markers it went through. *)
Lemma cut_clean (markers : list str) (d : str) :
  Forall (fun marker => marker <> []) markers ->
  forall marker, In marker markers ->
    py_in marker (fold_left cut_at markers d) = false.
Proof.
  intros Hne. revert d. induction Hne as [|m ms Hm Hms IH]; intros d marker Hin.
  - contradiction.
  - simpl. destruct Hin as [<- | Hin].
    + destruct (cut_prefix ms (cut_at d m)) as [r Hr].
      apply py_in_absent_prefix with (r := r). rewrite <- Hr.
      now apply cut_at_clean.
    + now apply IH.
Qed.

Lemma cut_absent (markers : list str) (d : str) :
  existsb (fun marker => py_in marker d) markers = false ->
  fold_left cut_at markers d = d.
Proof.
  induction markers as [|m ms IH]; simpl; intros H.
  - reflexivity.
  - apply orb_false_iff in H. destruct H as [H1 H2].
    unfold cut_at at 2. rewrite H1. now apply IH.
Qed.

Lemma truncate_sections_prefix (d : str) :
  exists r, d = truncate_sections d ++ r.
Proof. exact (cut_prefix sections_to_remove d). Qed.

Lemma existsb_none (markers : list str) (d : str) :
  (forall marker, In marker markers -> py_in marker d = false) ->
  existsb (fun marker => py_in marker d) markers = false.
Proof.
  induction markers as [|m ms IH]; intros H; simpl.
  - reflexivity.
  - rewrite (H m (or_introl eq_refl)). apply IH. intros x Hx. apply H. now right.
Qed.

Lemma truncate_sections_clean (d : str) :
  has_marker (truncate_sections d) = false.
Proof.
  unfold has_marker. apply existsb_none. intros marker Hin.
  exact (cut_clean sections_to_remove d markers_not_empty marker Hin).
Qed.

Lemma truncate_sections_absent (d : str) :
  has_marker d = false -> truncate_sections d = d.
Proof.
  intros H. exact (cut_absent sections_to_remove d H).
Qed.

(** [find] returns the offset of an occurrence, and no occurrence starts
    before it. *)
Lemma find_occurrence (s sub : str) (n : nat) :
  find s sub = Some n -> exists b, s = firstn n s ++ sub ++ b.
Proof.
  revert n. induction s as [|c s IH]; simpl; intros n.
  - destruct (startswith [] sub) eqn:E; [|discriminate].
    intros H. injection H as <-. apply startswith_iff in E. exact E.
  - destruct (startswith (c :: s) sub) eqn:E.
    + intros H. injection H as <-. apply startswith_iff in E. exact E.
    + destruct (find s sub) as [k|]; [|discriminate]. simpl.
      intros H. injection H as <-. destruct (IH k eq_refl) as [b Hb].
      exists b. simpl. now rewrite <- Hb.
Qed.

Lemma find_least (s sub a b : str) :
  s = a ++ sub ++ b -> exists n, find s sub = Some n /\ n <= length a.
Proof.
  revert s. induction a as [|c a IH]; intros s ->; simpl.
  - change (sub ++ b) with ([] ++ sub ++ b).
    destruct (sub ++ b) eqn:E; simpl.
    + destruct sub; [|discriminate]. simpl. exists 0. split; [reflexivity | lia].
    + rewrite <- E, startswith_app. exists 0. split; [reflexivity | lia].
  - destruct (startswith (c :: a ++ sub ++ b) sub).
    + exists 0. split; [reflexivity | lia].
    + destruct (IH _ eq_refl) as [n [Hn Hle]]. rewrite Hn. simpl.
      exists (S n). split; [reflexivity | lia].
Qed.

Lemma min_offset_le (a b : option nat) (n : nat) :
  a = Some n \/ (exists k, b = Some k /\ k <= n) ->
  exists k, min_offset a b = Some k /\ k <= n.
Proof.
  intros [-> | [k [-> Hk]]].
  - destruct b as [y|]; simpl; eexists; split; try reflexivity; lia.
  - destruct a as [x|]; simpl; eexists; split; try reflexivity; lia.
Qed.

Lemma earliest_le (markers : list str) (text marker : str) (n : nat) :
  In marker markers -> find text marker = Some n ->
  exists k,
    fold_right (fun m acc => min_offset (find text m) acc) None markers = Some k
    /\ k <= n.
Proof.
  induction markers as [|m ms IH]; [contradiction|].
  intros [-> | Hin] Hf; simpl; apply min_offset_le.
  - now left.
  - right. now apply IH.
Qed.

(** A cut of any prefix of [text] at one of the markers falls at or behind
    the earliest marker offset of [text]. *)
Lemma cut_not_before_earliest (markers : list str) (text d r marker : str) :
  In marker markers -> text = d ++ r -> py_in marker d = true ->
  exists k,
    fold_right (fun m acc => min_offset (find text m) acc) None markers = Some k
    /\ k <= length (cut_at d marker).
Proof.
  intros Hin Htext Hm. unfold cut_at. rewrite Hm.
  destruct (find d marker) as [j|] eqn:Ej.
  2:{ apply find_none in Ej. congruence. }
  rewrite (split_head_find _ _ _ Ej).
  destruct (find_occurrence _ _ _ Ej) as [b Hb].
  assert (Ht : text = firstn j d ++ marker ++ (b ++ r)).
  { rewrite Htext. rewrite Hb at 1. now rewrite <- !app_assoc. }
  destruct (find_least _ _ _ _ Ht) as [n [Hn Hle]].
  destruct (earliest_le _ _ _ _ Hin Hn) as [k [Hk Hkn]].
  exists k. split; [exact Hk | lia].
Qed.

Lemma cut_bound (all markers : list str) (text d r : str) :
  incl markers all -> text = d ++ r ->
  (r = [] \/ exists k,
     fold_right (fun m acc => min_offset (find text m) acc) None all = Some k
     /\ k <= length d) ->
  exists r', text = fold_left cut_at markers d ++ r' /\
    (r' = [] \/ exists k,
       fold_right (fun m acc => min_offset (find text m) acc) None all = Some k
       /\ k <= length (fold_left cut_at markers d)).
Proof.
  revert d r. induction markers as [|m ms IH]; intros d r Hincl Htext Hinv; simpl.
  - now exists r.
  - destruct (cut_at_prefix d m) as [r1 Hr1].
    apply (IH (cut_at d m) (r1 ++ r)).
    + intros x Hx. apply Hincl. now right.
    + rewrite Htext. rewrite Hr1 at 1. now rewrite <- app_assoc.
    + destruct (py_in m d) eqn:Em.
      * right. apply (cut_not_before_earliest all text d r m);
          [apply Hincl; now left | assumption | assumption].
      * assert (Hc : cut_at d m = d) by (unfold cut_at; now rewrite Em).
        rewrite Hc in *. destruct Hinv as [-> | Hinv]; [|now right].
        left. apply (f_equal (@length ascii)) in Hr1.
        rewrite length_app in Hr1. destruct r1; [reflexivity | simpl in Hr1; lia].
Qed.

(** The truncation never cuts before the earliest marker: it keeps a prefix
    without markers that is the whole text or reaches the earliest offset. *)
Lemma truncate_sections_bounds (text : str) :
  exists r, text = truncate_sections text ++ r /\
    has_marker (truncate_sections text) = false /\
    (r = [] \/ exists k, earliest_marker_offset text = Some k
                         /\ k <= length (truncate_sections text)).
Proof.
  destruct (cut_bound sections_to_remove sections_to_remove text text [])
    as [r [Hr Hb]].
  - apply incl_refl.
  - now rewrite app_nil_r.
  - now left.
  - exists r. split; [exact Hr|]. split; [apply truncate_sections_clean | exact Hb].
Qed.

(** The example of the specification: "Shipping" at offset 10 and
    "### Care" at offset 50 cut at offset 10. *)
Example truncate_shipping_before_care :
  find "0123456789Shipping is free. 0123456789012345678901### Care: wash cold"
       "### Care" = Some 50 /\
  find "0123456789Shipping is free. 0123456789012345678901### Care: wash cold"
       "Shipping" = Some 10 /\
  truncate_sections
    "0123456789Shipping is free. 0123456789012345678901### Care: wash cold"
  = "0123456789".
Proof. repeat split; vm_compute; reflexivity. Qed.

(** C1.  The truncation of [clean_description] does not always cut at the
    earliest marker occurrence.  In "Great rug. Easy 30 Day Returns apply."
    the earliest marker, "Easy 30 Day Returns", starts at offset 11; the loop
    reaches "Returns" first (it comes earlier in the list), cuts at offset 23,
    and "Easy 30 Day Returns" is then no longer found: the text kept ends at
    offset 23 and the function returns "Great rug. Easy 30 Day". *)
Theorem truncation_overshoots_earliest_marker :
  earliest_marker_offset "Great rug. Easy 30 Day Returns apply." = Some 11 /\
  find "Great rug. Easy 30 Day Returns apply." "Easy 30 Day Returns" = Some 11 /\
  find "Great rug. Easy 30 Day Returns apply." "Returns" = Some 23 /\
  truncate_sections "Great rug. Easy 30 Day Returns apply."
    = firstn 23 "Great rug. Easy 30 Day Returns apply." /\
  clean_description (PStr "Great rug. Easy 30 Day Returns apply.")
    = Ok "Great rug. Easy 30 Day".
Proof. repeat split; vm_compute; reflexivity. Qed.

(** ** Whitespace collapsing and idempotence *)

Lemma LF_is_space : isspace "010"%char = true.
Proof. reflexivity. Qed.

Lemma no_LF_in_words (ws : list str) :
  Forall is_word ws -> ~ In "010"%char (join " " ws).
Proof.
  intros Hws Hin.
  pose proof (join_words_space _ _ Hws Hin LF_is_space) as H. discriminate H.
Qed.

(** Joined words are a fixed point of lines 53-56. *)
Lemma collapse_whitespace_words (ws : list str) :
  Forall is_word ws -> collapse_whitespace (join " " ws) = join " " ws.
Proof.
  intros Hws. unfold collapse_whitespace.
  pose proof (no_LF_in_words ws Hws) as Hno.
  rewrite (replace_absent (join " " ws) (LF ++ LF) " ");
    [| discriminate | now apply py_in_absent_char].
  rewrite (replace_absent (join " " ws) LF " ");
    [| discriminate | now apply py_in_absent_char].
  rewrite split_ws_join by assumption. now apply strip_join.
Qed.

Lemma collapse_whitespace_is_join (s : str) :
  exists ws, Forall is_word ws /\ collapse_whitespace s = join " " ws.
Proof.
  unfold collapse_whitespace.
  exists (split_ws (replace (replace s (LF ++ LF) " ") LF " ")).
  split; [apply split_ws_words|]. apply strip_join, split_ws_words.
Qed.

Lemma collapse_whitespace_idempotent (s : str) :
  collapse_whitespace (collapse_whitespace s) = collapse_whitespace s.
Proof.
  destruct (collapse_whitespace_is_join s) as [ws [Hws ->]].
  now apply collapse_whitespace_words.
Qed.

Lemma truncate_sections_empty : truncate_sections "" = "".
Proof. vm_compute. reflexivity. Qed.

Lemma collapse_whitespace_empty : collapse_whitespace "" = "".
Proof. vm_compute. reflexivity. Qed.

(** On a string, both branches of [clean_description] agree with the
    pipeline: the empty string is cleaned to itself. *)
Lemma clean_description_str (d : str) :
  clean_description (PStr d) = Ok (collapse_whitespace (truncate_sections d)).
Proof.
  destruct d as [|c d].
  - now rewrite truncate_sections_empty, collapse_whitespace_empty.
  - reflexivity.
Qed.

(** A cleaned text without markers is a fixed point of the cleaner. *)
Lemma clean_description_fixed (q : str) :
  (exists d, clean_description (PStr d) = Ok q) ->
  has_marker q = false ->
  clean_description (PStr q) = Ok q.
Proof.
  intros [d Hd] Hq. rewrite clean_description_str in *.
  injection Hd as <-. rewrite truncate_sections_absent by exact Hq.
  now rewrite collapse_whitespace_idempotent.
Qed.

(** C8 (as stated, refuted).  "Add  To Bag" (two spaces) holds no marker;
    the cleaner collapses the spaces and so produces the marker "Add To Bag",
    which a second run cuts away: once gives "Add To Bag", twice gives "". *)
Lemma clean_description_not_idempotent :
  has_marker "Add  To Bag" = false /\
  clean_description (PStr "Add  To Bag") = Ok "Add To Bag" /\
  clean_description (PStr "Add To Bag") = Ok "".
Proof. repeat split; vm_compute; reflexivity. Qed.

(** C8 (amended).  For a description that holds no marker and whose
    whitespace-collapsed form holds none either, the cleaner returns the
    collapsed form, and cleaning that again returns it unchanged. *)
Theorem clean_description_idempotent_on_clean_text (d : str) :
  has_marker d = false ->
  has_marker (collapse_whitespace d) = false ->
  clean_description (PStr d) = Ok (collapse_whitespace d) /\
  bind_result (clean_description (PStr d))
              (fun once => clean_description (PStr once))
  = clean_description (PStr d).
Proof.
  intros Hd Hq.
  assert (H1 : clean_description (PStr d) = Ok (collapse_whitespace d)).
  { rewrite clean_description_str. now rewrite truncate_sections_absent. }
  split; [exact H1|]. rewrite H1. simpl.
  apply clean_description_fixed; [now exists d | exact Hq].
Qed.

Lemma clean_description_idempotent_witness :
  bind_result (clean_description (PStr ("Handwoven  rug," ++ LF ++ "made in Peru ")))
              (fun once => clean_description (PStr once))
  = clean_description (PStr ("Handwoven  rug," ++ LF ++ "made in Peru ")).
Proof.
  apply (clean_description_idempotent_on_clean_text
           ("Handwoven  rug," ++ LF ++ "made in Peru ")); vm_compute; reflexivity.
Defined.

(** ** [clean_price] *)

Lemma was_null_unbordered : unbordered was_null = true.
Proof. vm_compute. reflexivity. Qed.

Lemma was_null_not_empty : was_null <> [].
Proof. discriminate. Qed.

Lemma clean_price_str (p : str) :
  clean_price (PStr p) = Ok (replace p was_null "").
Proof. destruct p; reflexivity. Qed.

Lemma replace_was_null_around (a b : str) :
  replace (a ++ was_null ++ b) was_null "" =
  replace a was_null "" ++ replace b was_null "".
Proof.
  change (replace (a ++ was_null ++ b) was_null "")
    with (replace_from was_null "" 0 (a ++ was_null ++ b)).
  rewrite (replace_from_around was_null "" was_null_unbordered was_null_not_empty).
  reflexivity.
Qed.

Lemma replace_was_null_shrinks (p : str) :
  py_in was_null p = true ->
  length (replace p was_null "") < length p.
Proof.
  intros H. apply py_in_iff in H. destruct H as [a [b ->]].
  rewrite replace_was_null_around, !length_app.
  pose proof (replace_from_delete_length was_null 0 a) as Ha.
  pose proof (replace_from_delete_length was_null 0 b) as Hb.
  change (replace_from was_null "" 0 a) with (replace a was_null "") in Ha.
  change (replace_from was_null "" 0 b) with (replace b was_null "") in Hb.
  change (length was_null) with 11. lia.
Qed.

(** C10 (as stated, refuted).  Deleting the inner occurrence of
    " (was (was null) null)" joins the text around it into a new occurrence:
    one pass leaves " (was null)", a second pass leaves "". *)
Lemma clean_price_not_idempotent :
  clean_price (PStr " (was (was null) null)") = Ok " (was null)" /\
  clean_price (PStr " (was null)") = Ok "".
Proof. split; vm_compute; reflexivity. Qed.

(** C10 (amended).  [clean_price] maps every falsy value to the empty
    string; on a string it deletes every occurrence of " (was null)" of its
    input (around any occurrence the two sides are cleaned independently,
    and a string without occurrence is returned as it is); and cleaning the
    result again changes nothing exactly when the result holds no
    occurrence. *)
Theorem clean_price_spec :
  (forall v, truthy v = false -> clean_price v = Ok "") /\
  (forall p, exists q,
      clean_price (PStr p) = Ok q /\
      (forall a b, p = a ++ was_null ++ b ->
         exists a' b', clean_price (PStr a) = Ok a' /\
                       clean_price (PStr b) = Ok b' /\ q = a' ++ b') /\
      (py_in was_null p = false -> q = p) /\
      (clean_price (PStr q) = Ok q <-> py_in was_null q = false)).
Proof.
  split.
  - intros v Hv. unfold clean_price. now rewrite Hv.
  - intros p. exists (replace p was_null ""). split; [apply clean_price_str|].
    split; [|split].
    + intros a b ->. exists (replace a was_null ""), (replace b was_null "").
      rewrite !clean_price_str. repeat split. apply replace_was_null_around.
    + intros H. apply replace_absent; [discriminate | exact H].
    + rewrite clean_price_str. split.
      * intros H. injection H as H.
        change (replace (replace p was_null "") was_null "" = replace p was_null "") in H.
        destruct (py_in was_null (replace p was_null "")) eqn:E; [|reflexivity].
        apply replace_was_null_shrinks in E. rewrite H in E. lia.
      * intros H. f_equal. apply replace_absent; [discriminate | exact H].
Qed.

(** ** The CSV export *)










End ConverterProps.

(* ================================================================== *)
(** * Properties of the retry client *)

Module RetryProps.

Import Scraper RetrySpec.

Lemma sleep_ok (seconds : Z) (w : world) :
  takes w seconds -> sleep seconds w = (Ok tt, after_sleep w seconds).
Proof.
  intros [[H0 Hmax] Ht]. unfold sleep.
  destruct (seconds <? 0)%Z eqn:E; [apply Z.ltb_lt in E; lia|].
  destruct (SLEEP_MAX <? seconds)%Z eqn:E'; [apply Z.ltb_lt in E'; lia|].
  rewrite Ht. reflexivity.
Qed.

(** [time.sleep] returns after the sleep or raises one of its exceptions,
    and then nothing has happened. *)
Lemma sleep_cases (seconds : Z) (w : world) :
  sleep seconds w = (Ok tt, after_sleep w seconds) \/
  exists e, sleep_error e /\ sleep seconds w = (Raise e, w).
Proof.
  unfold sleep, sleep_error.
  destruct (seconds <? 0)%Z; [right; exists ValueError; auto|].
  destruct (SLEEP_MAX <? seconds)%Z; [right; exists OverflowError; auto|].
  destruct (timer w (length (events w)) seconds);
    [left; reflexivity | right; exists OSError; auto].
Qed.

Lemma sleep_then {A : Type} (seconds : Z) (k : M A) (w : world) :
  (sleep seconds ;;; k) w = k (after_sleep w seconds) \/
  exists e, sleep_error e /\ (sleep seconds ;;; k) w = (Raise e, w).
Proof.
  unfold bind.
  destruct (sleep_cases seconds w) as [E | [e [He E]]]; rewrite E.
  - left. reflexivity.
  - right. exists e. split; [exact He | reflexivity].
Qed.

Lemma backoff_nonneg (attempt : nat) : (0 <= 30 * 2 ^ Z.of_nat attempt)%Z.
Proof. apply Z.mul_nonneg_nonneg; [lia|]. apply Z.pow_nonneg. lia. Qed.

(** A response that is neither 429 nor a server error ends the loop. *)
Lemma retry_step_return (url : str) (payload : pyval) (remaining attempt : nat)
      (w : world) (r : response) :
  server w (posts w) url payload = Responded r ->
  status_code r <> 429%Z -> (status_code r < 500)%Z ->
  retry_loop url payload (S remaining) attempt w
  = (Ok (Some r), after_post w url payload).
Proof.
  intros Hr H429 H500. cbn [retry_loop]. unfold bind at 1, post. rewrite Hr.
  apply Z.eqb_neq in H429. rewrite H429.
  destruct (500 <=? status_code r)%Z eqn:E; [apply Z.leb_le in E; lia|].
  reflexivity.
Qed.

(** A 429 whose header gives a wait [time.sleep] takes costs the iteration
    and a sleep. *)
Lemma retry_step_429 (url : str) (payload : pyval) (remaining attempt : nat)
      (w : world) (r : response) (seconds : Z) :
  server w (posts w) url payload = Responded r ->
  status_code r = 429%Z -> header_wait r seconds -> takes w seconds ->
  retry_loop url payload (S remaining) attempt w
  = retry_loop url payload remaining (S attempt)
      (after_sleep (after_post w url payload) seconds).
Proof.
  intros Hr H429 Hw Ht. cbn [retry_loop]. unfold bind at 1, post. rewrite Hr, H429.
  cbn [Z.eqb Pos.eqb]. unfold bind at 1.
  assert (Hwait : wait_time_of r (after_post w url payload)
                  = (Ok seconds, after_post w url payload)).
  { unfold wait_time_of. destruct Hw as [[-> ->] | [-> _]]; reflexivity. }
  fold (after_post w url payload). rewrite Hwait.
  unfold bind at 1. rewrite sleep_ok; [reflexivity | exact Ht].
Qed.

(** A server error costs the iteration and an exponential sleep. *)
Lemma retry_step_5xx (url : str) (payload : pyval) (remaining attempt : nat)
      (w : world) (r : response) :
  server w (posts w) url payload = Responded r ->
  (500 <= status_code r)%Z ->
  takes w (30 * 2 ^ Z.of_nat attempt) ->
  retry_loop url payload (S remaining) attempt w
  = retry_loop url payload remaining (S attempt)
      (after_sleep (after_post w url payload) (30 * 2 ^ Z.of_nat attempt)).
Proof.
  intros Hr H500 Ht. cbn [retry_loop]. unfold bind at 1, post. rewrite Hr.
  destruct (status_code r =? 429)%Z eqn:E; [apply Z.eqb_eq in E; lia|].
  destruct (500 <=? status_code r)%Z eqn:E'; [|apply Z.leb_gt in E'; lia].
  fold (after_post w url payload). unfold bind at 1.
  rewrite sleep_ok by exact Ht. reflexivity.
Qed.

(** A request that fails costs the iteration and an exponential sleep. *)
Lemma retry_step_failed (url : str) (payload : pyval) (remaining attempt : nat)
      (w : world) :
  server w (posts w) url payload = RequestException ->
  takes w (30 * 2 ^ Z.of_nat attempt) ->
  retry_loop url payload (S remaining) attempt w
  = retry_loop url payload remaining (S attempt)
      (after_sleep (after_post w url payload) (30 * 2 ^ Z.of_nat attempt)).
Proof.
  intros Hr Ht. cbn [retry_loop]. unfold bind at 1, post. rewrite Hr.
  fold (after_post w url payload). unfold bind at 1.
  rewrite sleep_ok by exact Ht. reflexivity.
Qed.

(** One iteration of the loop: it returns the response, or an exception
    escapes from the wait (the header [int] rejects, or [time.sleep]), or it
    sleeps and goes on. *)
Lemma retry_loop_step (url : str) (payload : pyval) (remaining attempt : nat)
      (w w' : world) (res : result (option response)) :
  retry_loop url payload (S remaining) attempt w = (res, w') ->
  (exists r, server w (posts w) url payload = Responded r /\
             status_code r <> 429%Z /\ (status_code r < 500)%Z /\
             res = Ok (Some r) /\ w' = after_post w url payload) \/
  (exists e, sleep_error e /\
             res = Raise e /\ w' = after_post w url payload) \/
  (exists seconds,
      retry_loop url payload remaining (S attempt)
        (after_sleep (after_post w url payload) seconds) = (res, w')).
Proof.
  intros H. cbn [retry_loop] in H. unfold bind at 1, post in H.
  fold (after_post w url payload) in H.
  destruct (server w (posts w) url payload) as [r|] eqn:Eo.
  - destruct (status_code r =? 429)%Z eqn:E429.
    + unfold bind at 1, wait_time_of in H.
      destruct (retry_after r) as [|z|].
      * unfold ret in H.
        destruct (sleep_then 30
                    (retry_loop url payload remaining (S attempt))
                    (after_post w url payload)) as [E | [e [He E]]];
          rewrite E in H.
        -- right. right. exists 30%Z. exact H.
        -- right. left. exists e. injection H as <- <-. auto.
      * unfold ret in H.
        destruct (sleep_then z
                    (retry_loop url payload remaining (S attempt))
                    (after_post w url payload)) as [E | [e [He E]]];
          rewrite E in H.
        -- right. right. exists z. exact H.
        -- right. left. exists e. injection H as <- <-. auto.
      * unfold raise in H. right. left. exists ValueError.
        injection H as <- <-. unfold sleep_error. auto.
    + apply Z.eqb_neq in E429.
      destruct (500 <=? status_code r)%Z eqn:E500.
      * destruct (sleep_then (30 * 2 ^ Z.of_nat attempt)
                    (retry_loop url payload remaining (S attempt))
                    (after_post w url payload)) as [E | [e [He E]]];
          rewrite E in H.
        -- right. right. exists (30 * 2 ^ Z.of_nat attempt)%Z. exact H.
        -- right. left. exists e. injection H as <- <-. auto.
      * left. exists r. apply Z.leb_gt in E500. unfold ret in H.
        injection H as <- <-. auto.
  - destruct (sleep_then (30 * 2 ^ Z.of_nat attempt)
                (retry_loop url payload remaining (S attempt))
                (after_post w url payload)) as [E | [e [He E]]];
      rewrite E in H.
    + right. right. exists (30 * 2 ^ Z.of_nat attempt)%Z. exact H.
    + right. left. exists e. injection H as <- <-. auto.
Qed.

(** What every run of the loop keeps. *)
Lemma retry_loop_props (url : str) (payload : pyval) (remaining : nat) :
  forall (attempt : nat) (w w' : world) (res : result (option response)),
    retry_loop url payload remaining attempt w = (res, w') ->
    server w' = server w /\
    timer w' = timer w /\
    posts w <= posts w' <= posts w + remaining /\
    (1 <= remaining -> posts w < posts w') /\
    (exists evs, events w' = events w ++ evs) /\
    (res = Ok None -> posts w' = posts w + remaining) /\
    (forall r, res = Ok (Some r) ->
       status_code r <> 429%Z /\ (status_code r < 500)%Z /\
       posts w < posts w' /\
       server w (posts w' - 1) url payload = Responded r) /\
    (forall e, res = Raise e -> sleep_error e).
Proof.
  induction remaining as [|k IH]; intros attempt w w' res H.
  - cbn [retry_loop] in H. unfold ret in H. injection H as <- <-.
    repeat split; try lia; try discriminate.
    exists []. now rewrite app_nil_r.
  - apply retry_loop_step in H.
    destruct H as [[r [Eo [H1 [H2 [-> ->]]]]] | [[e [He [-> ->]]] | [z H]]].
    + cbn [after_post server timer posts events].
      split; [reflexivity|]. split; [reflexivity|].
      split; [lia|]. split; [lia|].
      split; [now exists [Posted url payload]|]. split; [discriminate|].
      split; [|discriminate].
      intros r' E. injection E as <-.
      replace (S (posts w) - 1) with (posts w) by lia.
      repeat split; try assumption; lia.
    + cbn [after_post server timer posts events].
      split; [reflexivity|]. split; [reflexivity|].
      split; [lia|]. split; [lia|].
      split; [now exists [Posted url payload]|]. split; [discriminate|].
      split; [discriminate|]. intros e' E. now injection E as <-.
    + apply IH in H. cbn [after_post after_sleep server timer posts events] in H.
      destruct H as [Hs [Ht [Hp [_ [[evs He] [Hn [Hr Hx]]]]]]].
      split; [exact Hs|]. split; [exact Ht|]. split; [lia|]. split; [lia|].
      split.
      { exists ([Posted url payload; Slept z] ++ evs). rewrite He.
        now rewrite <- !app_assoc. }
      split; [intros E; specialize (Hn E); lia|].
      split; [|exact Hx].
      intros r E. destruct (Hr r E) as [A [B [C D]]].
      repeat split; try assumption; lia.
Qed.

Lemma sleep_returns (seconds : Z) (w w' : world) (u : unit) :
  sleep seconds w = (Ok u, w') -> w' = after_sleep w seconds.
Proof.
  intros H. destruct (sleep_cases seconds w) as [E | [e [_ E]]];
    rewrite E in H; congruence.
Qed.

Lemma requests_of_app (a b : list event) :
  requests_of (a ++ b) = requests_of a ++ requests_of b.
Proof.
  induction a as [|[url payload|seconds] a IH]; cbn [app requests_of].
  - reflexivity.
  - now rewrite IH.
  - exact IH.
Qed.

Lemma extends_refl (w : world) : extends w w [].
Proof.
  unfold extends. cbn [requests_of length]. rewrite app_nil_r, Nat.add_0_r.
  repeat split.
Qed.

Lemma extends_trans (w1 w2 w3 : world) (a b : list event) :
  extends w1 w2 a -> extends w2 w3 b -> extends w1 w3 (a ++ b).
Proof.
  intros [Hs [Ht [He Hp]]] [Hs' [Ht' [He' Hp']]]. unfold extends.
  rewrite Hs', Hs, Ht', Ht, He', He, Hp', Hp, requests_of_app, length_app, app_assoc.
  repeat split. lia.
Qed.

Lemma extends_post (w : world) (url : str) (payload : pyval) :
  extends w (after_post w url payload) [Posted url payload].
Proof.
  unfold extends. cbn [after_post server timer events posts requests_of length].
  repeat split. lia.
Qed.

Lemma extends_sleep (w : world) (seconds : Z) :
  extends w (after_sleep w seconds) [Slept seconds].
Proof.
  unfold extends. cbn [after_sleep server timer events posts requests_of length].
  repeat split. lia.
Qed.

(** The history of a run of the loop; a response it returns is the answer
    to the request the history ends with. *)
Lemma retry_loop_run (url : str) (payload : pyval) (remaining : nat) :
  forall (attempt : nat) (w w' : world) (res : result (option response)),
    retry_loop url payload remaining attempt w = (res, w') ->
    exists evs,
      extends w w' evs /\
      forall r, res = Ok (Some r) ->
        exists evs0,
          evs = evs0 ++ [Posted url payload] /\
          server w (posts w + length (requests_of evs0)) url payload = Responded r.
Proof.
  induction remaining as [|k IH]; intros attempt w w' res H.
  - cbn [retry_loop] in H. unfold ret in H. injection H as <- <-.
    exists []. split; [apply extends_refl | discriminate].
  - apply retry_loop_step in H.
    destruct H as [[r [Eo [H1 [H2 [-> ->]]]]] | [[e [He [-> ->]]] | [z H]]].
    + exists [Posted url payload]. split; [apply extends_post|].
      intros r' E. injection E as <-. exists []. split; [reflexivity|].
      cbn [requests_of length]. now rewrite Nat.add_0_r.
    + exists [Posted url payload]. split; [apply extends_post | discriminate].
    + apply IH in H. destruct H as [evs [Hext Hr]].
      exists ([Posted url payload; Slept z] ++ evs). split.
      * apply (extends_trans w (after_sleep (after_post w url payload) z) w');
          [|exact Hext].
        apply (extends_trans w (after_post w url payload) _
                 [Posted url payload] [Slept z]);
          [apply extends_post | apply extends_sleep].
      * intros r E. destruct (Hr r E) as [evs0 [-> Hs]].
        exists ([Posted url payload; Slept z] ++ evs0). split.
        -- now rewrite <- app_assoc.
        -- cbn [after_sleep after_post server posts] in Hs.
           cbn [app requests_of length].
           replace (posts w + S (length (requests_of evs0)))
             with (S (posts w) + length (requests_of evs0)) by lia.
           exact Hs.
Qed.

(** C7.  When the response to a request has a status code that is neither
    429 nor 500 or more (a 404, say), the retry client returns that very
    response: the world afterwards differs from the one before by this one
    request only, with no sleep and no further request. *)
Theorem retry_returns_other_response_at_once
        (url : str) (payload : pyval) (remaining attempt : nat)
        (w : world) (r : response) :
  server w (posts w) url payload = Responded r ->
  status_code r <> 429%Z -> (status_code r < 500)%Z ->
  exists w',
    retry_loop url payload (S remaining) attempt w = (Ok (Some r), w') /\
    posts w' = S (posts w) /\
    events w' = events w ++ [Posted url payload].
Proof.
  intros Hr H429 H500. exists (after_post w url payload).
  rewrite (retry_step_return url payload remaining attempt w r Hr H429 H500).
  repeat split.
Qed.

Lemma retry_returns_other_response_witness :
  exists w',
    retry_loop "u" PNone 3 0 (constant_world not_found) = (Ok (Some not_found), w') /\
    posts w' = 1 /\
    events w' = [Posted "u" PNone].
Proof.
  apply (retry_returns_other_response_at_once "u" PNone 2 0
           (constant_world not_found) not_found).
  - reflexivity.
  - discriminate.
  - reflexivity.
Defined.

(** C2 (as stated, refuted).  Two 429 responses followed by a 200 do not
    always yield the 200: when the first 429 carries a [Retry-After] header
    that [int] rejects (an HTTP date), line 68 raises [ValueError], which the
    [except] clause for [RequestException] does not catch; the call ends
    after one request without a response. *)
Lemma retry_429_with_date_header_raises :
  fst (make_request_with_retry "u" PNone 3
         (scripted_world [rate_limited RetryAfterOther;
                          rate_limited NoRetryAfter; ok_response]))
  = Raise ValueError /\
  posts (snd (make_request_with_retry "u" PNone 3
         (scripted_world [rate_limited RetryAfterOther;
                          rate_limited NoRetryAfter; ok_response]))) = 1.
Proof. split; vm_compute; reflexivity. Qed.

(** C2 (amended).  With a budget of 3 attempts: two 429 responses whose
    [Retry-After] header is absent or a non-negative integer, the waits they
    give being lengths [time.sleep] takes (at most [SLEEP_MAX] seconds and
    within the range of the platform's clock), followed by a 200 on the
    third attempt, yield the 200 response after exactly 3 requests and the
    two header-given sleeps (each 429 uses up one attempt); and three
    responses with status 500 or more yield [None] after exactly 3 requests,
    with sleeps of 30, 60 and 120 seconds, when [time.sleep] takes these
    three lengths. *)
Theorem retry_budget_of_three (url : str) (payload : pyval) (w : world) :
  (forall r1 r2 r3 t1 t2,
      server w (posts w) url payload = Responded r1 ->
      server w (S (posts w)) url payload = Responded r2 ->
      server w (S (S (posts w))) url payload = Responded r3 ->
      status_code r1 = 429%Z -> header_wait r1 t1 -> takes w t1 ->
      status_code r2 = 429%Z -> header_wait r2 t2 -> takes w t2 ->
      status_code r3 = 200%Z ->
      exists w',
        make_request_with_retry url payload 3 w = (Ok (Some r3), w') /\
        posts w' = posts w + 3 /\
        events w' = events w ++ [Posted url payload; Slept t1;
                                 Posted url payload; Slept t2;
                                 Posted url payload]) /\
  (forall r1 r2 r3,
      server w (posts w) url payload = Responded r1 ->
      server w (S (posts w)) url payload = Responded r2 ->
      server w (S (S (posts w))) url payload = Responded r3 ->
      (500 <= status_code r1)%Z -> (500 <= status_code r2)%Z ->
      (500 <= status_code r3)%Z ->
      takes w 30 -> takes w 60 -> takes w 120 ->
      exists w',
        make_request_with_retry url payload 3 w = (Ok None, w') /\
        posts w' = posts w + 3 /\
        events w' = events w ++ [Posted url payload; Slept 30;
                                 Posted url payload; Slept 60;
                                 Posted url payload; Slept 120]).
Proof.
  split.
  - intros r1 r2 r3 t1 t2 H1 H2 H3 S1 W1 T1 S2 W2 T2 S3.
    unfold make_request_with_retry.
    rewrite (retry_step_429 url payload 2 0 w r1 t1 H1 S1 W1 T1).
    rewrite (retry_step_429 url payload 1 1
               (after_sleep (after_post w url payload) t1) r2 t2 H2 S2 W2 T2).
    rewrite (retry_step_return url payload 0 2
               (after_sleep
                  (after_post (after_sleep (after_post w url payload) t1)
                              url payload) t2) r3 H3) by lia.
    eexists. split; [reflexivity|]. cbn [posts events after_post after_sleep].
    split; [lia|]. now rewrite <- !app_assoc.
  - intros r1 r2 r3 H1 H2 H3 S1 S2 S3 T30 T60 T120.
    unfold make_request_with_retry.
    rewrite (retry_step_5xx url payload 2 0 w r1 H1 S1 T30).
    rewrite (retry_step_5xx url payload 1 1
               (after_sleep (after_post w url payload) (30 * 2 ^ Z.of_nat 0))
               r2 H2 S2 T60).
    rewrite (retry_step_5xx url payload 0 2
               (after_sleep
                  (after_post
                     (after_sleep (after_post w url payload) (30 * 2 ^ Z.of_nat 0))
                     url payload) (30 * 2 ^ Z.of_nat 1)) r3 H3 S3 T120).
    eexists. split; [reflexivity|]. cbn [posts events after_post after_sleep].
    split; [lia|]. now rewrite <- !app_assoc.
Qed.

Lemma retry_budget_of_three_witness :
  (exists w',
     make_request_with_retry "u" PNone 3
       (scripted_world [rate_limited NoRetryAfter;
                        rate_limited (RetryAfterSeconds 5); ok_response])
     = (Ok (Some ok_response), w') /\
     posts w' = 3 /\
     events w' = [Posted "u" PNone; Slept 30; Posted "u" PNone; Slept 5;
                  Posted "u" PNone]) /\
  (exists w',
     make_request_with_retry "u" PNone 3
       (scripted_world [unavailable; unavailable; unavailable])
     = (Ok None, w') /\
     posts w' = 3 /\
     events w' = [Posted "u" PNone; Slept 30; Posted "u" PNone; Slept 60;
                  Posted "u" PNone; Slept 120]).
Proof.
  split.
  - apply (proj1 (retry_budget_of_three "u" PNone
             (scripted_world [rate_limited NoRetryAfter;
                              rate_limited (RetryAfterSeconds 5); ok_response]))
             (rate_limited NoRetryAfter) (rate_limited (RetryAfterSeconds 5))
             ok_response 30%Z 5%Z); try reflexivity.
    + left. split; reflexivity.
    + split; [unfold SLEEP_MAX; lia | reflexivity].
    + right. split; [reflexivity | lia].
    + split; [unfold SLEEP_MAX; lia | reflexivity].
  - apply (proj2 (retry_budget_of_three "u" PNone
             (scripted_world [unavailable; unavailable; unavailable]))
             unavailable unavailable unavailable); try reflexivity;
      try (simpl; lia);
      (split; [unfold SLEEP_MAX; lia | reflexivity]).
Defined.

End RetryProps.

(* ================================================================== *)
(** * Properties of the text helpers of the scraper *)

Module TextProps.

Import Scraper PyStrFacts TextSpec.

(** ** Keyword extraction *)

Lemma startswith_lower (kw s : str) :
  startswith (lower s) (lower kw) = ci_prefix kw s.
Proof.
  revert s. induction kw as [|k kw IH]; intros s; simpl.
  - reflexivity.
  - destruct s as [|c s]; simpl; [reflexivity|]. now rewrite IH.
Qed.

Lemma py_in_lower (kw text : str) :
  py_in (lower kw) (lower text) = ci_occurs kw text.
Proof.
  induction text as [|c text IH].
  - simpl. now rewrite <- (startswith_lower kw []).
  - cbn [lower map py_in ci_occurs]. fold (lower text). rewrite IH.
    f_equal. apply (startswith_lower kw (c :: text)).
Qed.

Lemma ci_prefix_iff (kw s : str) :
  ci_prefix kw s = true <-> exists m b, s = m ++ b /\ lower m = lower kw.
Proof.
  rewrite <- startswith_lower, startswith_iff. split.
  - intros [r Hr]. exists (firstn (length kw) s), (skipn (length kw) s).
    split; [now rewrite firstn_skipn|].
    unfold lower in *. rewrite <- firstn_map, Hr.
    rewrite firstn_app, length_map, Nat.sub_diag. simpl. rewrite app_nil_r.
    rewrite <- (length_map lower_char kw). apply firstn_all.
  - intros [m [b [-> Hm]]]. exists (lower b). unfold lower in *.
    now rewrite map_app, Hm.
Qed.

(** [ci_occurs] says what it should: some stretch of the text equals the
    keyword once both are lowered. *)
Lemma ci_occurs_iff (kw text : str) :
  ci_occurs kw text = true <->
  exists a m b, text = a ++ m ++ b /\ lower m = lower kw.
Proof.
  induction text as [|c text IH]; cbn [ci_occurs].
  - rewrite orb_false_r, ci_prefix_iff. split.
    + intros [m [b [H1 H2]]]. now exists [], m, b.
    + intros [a [m [b [H1 H2]]]]. destruct a; [now exists m, b | discriminate].
  - rewrite orb_true_iff, ci_prefix_iff, IH. split.
    + intros [[m [b [H1 H2]]] | [a [m [b [H1 H2]]]]].
      * now exists [], m, b.
      * exists (c :: a), m, b. split; [now rewrite H1 | exact H2].
    + intros [a [m [b [H1 H2]]]]. destruct a as [|c' a]; simpl in H1.
      * left. now exists m, b.
      * right. injection H1 as _ H1. now exists a, m, b.
Qed.

Lemma fold_left_append_filter {A} (f : A -> bool) (l acc : list A) :
  fold_left (fun found x => if f x then found ++ [x] else found) l acc
  = acc ++ filter f l.
Proof.
  revert acc. induction l as [|x l IH]; intros acc; simpl.
  - now rewrite app_nil_r.
  - rewrite IH. destruct (f x); [now rewrite <- app_assoc | reflexivity].
Qed.

(** C4.  For every text, [extract_keywords] returns the vocabulary filtered
    by case-insensitive occurrence in the text, hence in vocabulary order: a
    keyword is returned exactly when it belongs to the vocabulary and some
    stretch of the text equals it up to case.  "HANDMADE and organic" and
    "organic HANDMADE" both give ["Handmade"; "Organic"]. *)
Theorem extract_keywords_spec (text : str) :
  extract_keywords text = filter (fun kw => ci_occurs kw text) keywords /\
  keywords = [ "Fairtrade"; "FSC"; "Handmade"; "Artisan"; "Sustainable";
               "Organic"; "Eco-friendly" ] /\
  (forall kw, In kw (extract_keywords text) <->
     In kw keywords /\ exists a m b, text = a ++ m ++ b /\ lower m = lower kw) /\
  extract_keywords "HANDMADE and organic" = ["Handmade"; "Organic"] /\
  extract_keywords "organic HANDMADE" = ["Handmade"; "Organic"].
Proof.
  assert (H : extract_keywords text = filter (fun kw => ci_occurs kw text) keywords).
  { destruct text as [|c text].
    - vm_compute. reflexivity.
    - transitivity (filter (fun kw => py_in (lower kw) (lower (c :: text))) keywords).
      + exact (fold_left_append_filter
                 (fun kw => py_in (lower kw) (lower (c :: text))) keywords []).
      + apply filter_ext. intros kw. apply py_in_lower. }
  split; [exact H|]. split; [reflexivity|]. split.
  - intros kw. rewrite H, filter_In, ci_occurs_iff. reflexivity.
  - split; vm_compute; reflexivity.
Qed.

(** ** Price display *)

(** C5.  The displayed price is "<current> (was <original>)" when an
    original price is present (not null, not empty) and differs from the
    current price, and the current price alone otherwise: when the original
    is null, empty or equal to the current price. *)
Theorem price_display_spec (current : str) (original : option str) :
  (forall o, original = Some o -> o <> "" -> o <> current ->
     price_display current original = current ++ " (was " ++ o ++ ")") /\
  (original = None \/ original = Some "" \/ original = Some current ->
     price_display current original = current) /\
  price_display "$100" (Some "$150") = "$100 (was $150)" /\
  price_display "$100" (Some "$100") = "$100" /\
  price_display "$100" None = "$100".
Proof.
  split; [|split].
  - intros o -> Hne Hdiff. unfold price_display. cbn [truthy].
    apply str_eqb_neq in Hne. apply str_eqb_neq in Hdiff.
    now rewrite Hne, Hdiff.
  - intros [-> | [-> | ->]]; unfold price_display.
    + reflexivity.
    + reflexivity.
    + cbn [truthy]. rewrite (str_eqb_refl current).
      now destruct (negb (str_eqb current "")).
  - repeat split; vm_compute; reflexivity.
Qed.

Lemma price_display_witness :
  price_display "$249" (Some "$299") = "$249 (was $299)" /\
  price_display "$249" (Some "$249") = "$249".
Proof.
  split.
  - apply (proj1 (price_display_spec "$249" (Some "$299")) "$299");
      [reflexivity | discriminate | discriminate].
  - apply (proj1 (proj2 (price_display_spec "$249" (Some "$249")))).
    right. right. reflexivity.
Defined.

(** ** Filename cleaning *)

Lemma runs_concat (cls : ascii -> bool) (s : str) :
  flat_map snd (runs cls s) = s.
Proof.
  induction s as [|c s IH]; simpl; [reflexivity|].
  destruct (runs cls s) as [|[b block] rest]; simpl in *.
  - now rewrite <- IH.
  - destruct (Bool.eqb (cls c) b); simpl; now rewrite <- IH.
Qed.

(** The blocks are not empty and uniform in their class. *)
Lemma runs_uniform (cls : ascii -> bool) (s : str) :
  Forall (fun b : bool * str =>
            snd b <> [] /\ Forall (fun c => cls c = fst b) (snd b))
         (runs cls s).
Proof.
  induction s as [|c s IH]; simpl; [constructor|].
  destruct (runs cls s) as [|[b block] rest].
  - repeat constructor. discriminate.
  - inversion IH as [|? ? [Hne Hall] Hrest]; subst. simpl in *.
    destruct (Bool.eqb (cls c) b) eqn:E.
    + apply Bool.eqb_prop in E. constructor; [|assumption]. simpl.
      split; [discriminate | now constructor].
    + constructor; [|assumption]. simpl. split; [discriminate | now constructor].
Qed.

Lemma runs_alternating (cls : ascii -> bool) (s : str) :
  alternating (runs cls s).
Proof.
  induction s as [|c s IH]; simpl; [exact I|].
  destruct (runs cls s) as [|[b block] rest]; [simpl; auto|].
  destruct (Bool.eqb (cls c) b) eqn:E.
  - exact IH.
  - split; [|exact IH]. simpl. intros H. rewrite H in E.
    now rewrite Bool.eqb_reflx in E.
Qed.

(** The scanner of [re.sub] for [cls+] and the collapse of the runs agree;
    inside a run the scanner has already emitted the replacement. *)
Lemma re_sub_runs_collapse (cls : ascii -> bool) (repl s : str) :
  re_sub_runs cls repl s = collapse repl (runs cls s) /\
  re_sub_rest cls repl s =
    match runs cls s with
    | (true, _) :: rest => collapse repl rest
    | blocks => collapse repl blocks
    end.
Proof.
  induction s as [|c s [IH1 IH2]]; [split; reflexivity|].
  cbn [re_sub_runs re_sub_rest runs].
  rewrite IH1, IH2. clear IH1 IH2.
  destruct (cls c) eqn:Ec; destruct (runs cls s) as [|[[|] block] rest];
    cbn [Bool.eqb collapse flat_map fst snd app]; split; reflexivity.
Qed.

Lemma re_sub_class_delete (cls : ascii -> bool) (s : str) :
  re_sub_class cls "" s = filter (fun c => negb (cls c)) s.
Proof.
  unfold re_sub_class. induction s as [|c s IH]; [reflexivity|].
  cbn [flat_map filter]. rewrite IH. now destruct (cls c).
Qed.

Lemma runs_ext (cls1 cls2 : ascii -> bool) (s : str) :
  (forall c, cls1 c = cls2 c) -> runs cls1 s = runs cls2 s.
Proof.
  intros H. induction s as [|c s IH]; [reflexivity|].
  cbn [runs]. now rewrite IH, H.
Qed.

(** The class [[-\s]] of line 216 is the list of separators. *)
Lemma hyphen_or_space_separator (c : ascii) : hyphen_or_space c = is_separator c.
Proof. destruct c as [[] [] [] [] [] [] [] []]; reflexivity. Qed.

(** C6.  A falsy name maps to the placeholder "unknown_product".  For a
    string, [clean_filename] keeps the word characters, whitespace and
    hyphens (the class [\w\s-] of line 215; "spaces" are the regex
    whitespace), replaces every maximal run of hyphens and whitespace (the
    characters listed in [separators]) by one underscore, and keeps the
    first 50 characters of the result, which therefore has at most 50.
    "Rio Throw (Grey) #2" maps to "Rio_Throw_Grey_2"; a hyphen alone, a
    hyphen between spaces, and a run of tab, hyphen and line feed each give
    one underscore. *)
Theorem clean_filename_spec (name : str) :
  (forall v, truthy v = false -> clean_filename v = Ok "unknown_product") /\
  clean_filename (PStr "") = Ok "unknown_product" /\
  (name <> "" ->
   clean_filename (PStr name)
   = Ok (firstn 50 (collapse_runs is_separator "_" (filter kept name)))) /\
  (forall out, clean_filename (PStr name) = Ok out -> length out <= 50) /\
  clean_filename (PStr "Rio Throw (Grey) #2") = Ok "Rio_Throw_Grey_2" /\
  clean_filename (PStr "Hand-Woven Rug") = Ok "Hand_Woven_Rug" /\
  clean_filename (PStr "Alpaca - Wool   Throw") = Ok "Alpaca_Wool_Throw" /\
  clean_filename (PStr ("Rio" ++ ["009"; "-"; "010"]%char ++ "Throw"))
  = Ok "Rio_Throw".
Proof.
  split; [|split; [|split; [|split]]].
  - intros v Hv. unfold clean_filename. now rewrite Hv.
  - reflexivity.
  - intros Hne. unfold clean_filename. cbn [truthy].
    apply str_eqb_neq in Hne. rewrite Hne. cbn [negb].
    rewrite re_sub_class_delete.
    rewrite (proj1 (re_sub_runs_collapse hyphen_or_space "_" _)).
    unfold collapse_runs.
    rewrite (runs_ext hyphen_or_space is_separator _ hyphen_or_space_separator).
    do 4 f_equal.
    apply filter_ext. intros c. unfold not_word_space_hyphen, kept.
    apply negb_involutive.
  - intros out. unfold clean_filename. cbn [truthy].
    set (len := fun r : result str =>
                  match r with Ok a => length a | Raise _ => 0 end).
    destruct (negb (negb (str_eqb name ""))); intros H;
      apply (f_equal len) in H; unfold len in H; rewrite <- H.
    + vm_compute. lia.
    + apply firstn_le_length.
  - repeat split; vm_compute; reflexivity.
Qed.

Lemma clean_filename_witness :
  clean_filename (PStr "Wool - Cotton-Blend   Throw")
  = Ok (firstn 50 (collapse_runs is_separator "_"
                     (filter kept "Wool - Cotton-Blend   Throw"))).
Proof.
  apply (proj1 (proj2 (proj2 (clean_filename_spec "Wool - Cotton-Blend   Throw")))).
  discriminate.
Defined.

End TextProps.

(* ================================================================== *)
(** * Properties of URL discovery *)

Module DiscoveryProps.

Import Scraper PyStrFacts RetrySpec RetryProps DiscoverySpec.

(** ** Absolute URLs *)

Lemma split_head_char (q c : ascii) (t : str) :
  split_head (c :: t) [q] = if (q =? c)%char then [] else c :: split_head t [q].
Proof. simpl. now rewrite andb_true_r. Qed.

Lemma is_alpha_not_query (c : ascii) : is_alpha c = true -> ("?" =? c)%char = false.
Proof.
  intros H. destruct ("?" =? c)%char eqn:E; [|reflexivity].
  apply Ascii.eqb_eq in E. subst c. discriminate H.
Qed.

Lemma is_scheme_char_not_query (c : ascii) :
  is_scheme_char c = true -> ("?" =? c)%char = false.
Proof.
  intros H. destruct ("?" =? c)%char eqn:E; [|reflexivity].
  apply Ascii.eqb_eq in E. subst c. discriminate H.
Qed.

Lemma scheme_rest_split_head (s : str) :
  scheme_rest s = true -> scheme_rest (split_head s "?") = true.
Proof.
  induction s as [|c s IH]; [discriminate|].
  change "?" with ["?"%char]. rewrite split_head_char. cbn [scheme_rest].
  destruct (c =? ":")%char eqn:Ec.
  - intros _. apply Ascii.eqb_eq in Ec. subst c. reflexivity.
  - intros H. apply andb_true_iff in H. destruct H as [H1 H2].
    rewrite (is_scheme_char_not_query c H1). cbn [scheme_rest].
    rewrite Ec, H1. exact (IH H2).
Qed.

(** Cutting the query string off keeps the scheme. *)
Lemma is_absolute_split_head (url : str) :
  is_absolute url = true -> is_absolute (split_head url "?") = true.
Proof.
  destruct url as [|c t]; [discriminate|].
  change "?" with ["?"%char]. rewrite split_head_char. cbn [is_absolute].
  intros H. apply andb_true_iff in H. destruct H as [H1 H2].
  rewrite (is_alpha_not_query c H1). cbn [is_absolute]. rewrite H1.
  exact (scheme_rest_split_head t H2).
Qed.

Lemma is_absolute_base (s : str) : is_absolute (BASE_URL ++ s) = true.
Proof. reflexivity. Qed.

Lemma qualify_absolute (s : str) :
  startswith s "/" = true \/ is_absolute s = true ->
  is_absolute (qualify s) = true.
Proof.
  unfold qualify. intros [H | H].
  - rewrite H. apply is_absolute_base.
  - destruct (startswith s "/"); [apply is_absolute_base | exact H].
Qed.

Lemma qualify_not_rooted (s : str) : startswith (qualify s) "/" = false.
Proof.
  unfold qualify. destruct (startswith s "/") eqn:E; [reflexivity | exact E].
Qed.

Lemma split_head_not_rooted (url : str) :
  startswith url "/" = false -> startswith (split_head url "?") "/" = false.
Proof.
  destruct url as [|c t]; [reflexivity|].
  change "?" with ["?"%char]. rewrite split_head_char.
  destruct ("?" =? c)%char; [reflexivity|]. simpl. now rewrite !andb_true_r.
Qed.

Lemma py_in_app_r (sub a s : str) :
  py_in sub s = true -> py_in sub (a ++ s) = true.
Proof.
  rewrite !py_in_iff. intros [x [y ->]]. exists (a ++ x), y.
  now rewrite <- app_assoc.
Qed.

Lemma qualify_keeps_products (s : str) :
  py_in "/products/" s = true -> py_in "/products/" (qualify s) = true.
Proof.
  intros H. unfold qualify. destruct (startswith s "/"); [|exact H].
  now apply py_in_app_r.
Qed.

(** ** What the API listed *)

(** A value listed during a part of a run was listed during the run. *)
Lemma served_within (w0 w w1 w' : world) (a c : list event)
      (payload : pyval) (key : str) (v : pyval) :
  extends w0 w a -> extends w1 w' c ->
  served w w1 payload key v -> served w0 w' payload key v.
Proof.
  intros [Hs [_ [He Hp]]] [_ [_ [He' _]]]
         [k [r [product_data [items [evs [Hev [Hk [Hr H]]]]]]]].
  exists (length (requests_of a) + k), r, product_data, items, (a ++ evs ++ c).
  split; [|split; [|split; [|exact H]]].
  - rewrite He', Hev, He. now rewrite <- !app_assoc.
  - rewrite !requests_of_app, nth_error_app2 by lia.
    replace (length (requests_of a) + k - length (requests_of a)) with k by lia.
    rewrite nth_error_app1; [exact Hk|].
    apply nth_error_Some. rewrite Hk. discriminate.
  - rewrite Hs, Hp in Hr. now rewrite Nat.add_assoc.
Qed.

(** The items of a response the retry client returned were listed. *)
Lemma retry_served (w w1 : world) (payload : pyval) (r : response) (key : str)
      (product_data : list (str * pyval)) (items : list pyval) (v : pyval) :
  make_request_with_retry FIRECRAWL_API_URL payload default_max_retries w
  = (Ok (Some r), w1) ->
  status_code r = 200%Z ->
  product_data_of r = Ok product_data ->
  py_iter (dict_get product_data key (PList [])) = Some items ->
  In v items ->
  served w w1 payload key v.
Proof.
  intros H H200 Hd Hi Hv. apply retry_loop_run in H.
  destruct H as [evs [[_ [_ [He _]]] Hr]].
  destruct (Hr r eq_refl) as [evs0 [-> Hs]].
  exists (length (requests_of evs0)), r, product_data, items,
         (evs0 ++ [Posted FIRECRAWL_API_URL payload]).
  split; [exact He|]. split.
  - rewrite requests_of_app, nth_error_app2 by lia.
    now rewrite Nat.sub_diag.
  - auto.
Qed.

(** ** What the two paths return *)

Lemma add_product_url_from (acc : set str) (url : pyval) (u : str) :
  set_In u (add_product_url acc url) ->
  set_In u acc \/
  exists s, url = PStr s /\ s <> "" /\
            py_in "/products/" (qualify s) = true /\ u = qualify s.
Proof.
  unfold add_product_url. destruct url as [| | | |s| |]; try (intros H; now left).
  cbn [truthy]. destruct (str_eqb s "") eqn:Es; cbn [negb]; [intros H; now left|].
  destruct (py_in "/products/" (qualify s)) eqn:Ep; [|intros H; now left].
  intros H. apply set_add_elim in H. destruct H as [-> | H]; [|now left].
  right. exists s. apply str_eqb_neq in Es. auto.
Qed.

Lemma fold_add_product_url_from (urls : list pyval) (u : str) :
  forall acc : set str,
    set_In u (fold_left add_product_url urls acc) ->
    set_In u acc \/
    exists s, In (PStr s) urls /\ s <> "" /\
              py_in "/products/" (qualify s) = true /\ u = qualify s.
Proof.
  induction urls as [|url urls IH]; intros acc H; cbn [fold_left] in H.
  - now left.
  - apply IH in H. destruct H as [H | [s [Hin H]]].
    + apply add_product_url_from in H. destruct H as [H | [s [-> H]]].
      * now left.
      * right. exists s. split; [now left | exact H].
    + right. exists s. split; [now right | exact H].
Qed.

Lemma harvest_from (r : response) (acc : set str) (u : str) :
  set_In u (harvest r acc) ->
  set_In u acc \/
  exists product_data items s,
    product_data_of r = Ok product_data /\
    py_iter (dict_get product_data "product_urls" (PList [])) = Some items /\
    In (PStr s) items /\ s <> "" /\
    py_in "/products/" (qualify s) = true /\ u = qualify s.
Proof.
  unfold harvest.
  destruct (product_data_of r) as [product_data|]; [|intros H; now left].
  destruct (py_iter _) as [items|] eqn:Ei; [|intros H; now left].
  intros H. apply fold_add_product_url_from in H.
  destruct H as [H | [s H]]; [now left|].
  right. exists product_data, items, s. auto.
Qed.

(** [H] says that [ret] produced the result at hand. *)
Ltac returned H := unfold ret in H; injection H as <- <-.

(** The set gathered over the collections holds candidates only. *)
Lemma scan_collections_candidates (collections : list str) :
  forall (acc : set str) (w w' : world) (found : set str),
    scan_collections collections acc w = (Ok found, w') ->
    exists evs,
      extends w w' evs /\
      forall u, set_In u found -> set_In u acc \/ candidate w w' collections u.
Proof.
  induction collections as [|c cs IH]; intros acc w w' found H.
  - cbn [scan_collections] in H. returned H.
    exists []. split; [apply extends_refl | intros u Hu; now left].
  - cbn [scan_collections] in H. unfold bind at 1 in H.
    destruct (make_request_with_retry FIRECRAWL_API_URL
                (scrape_payload c collection_prompt) default_max_retries w)
      as [[response|e] w1] eqn:E; [|discriminate].
    unfold bind at 1 in H.
    destruct (sleep 1 w1) as [[[]|e] w2] eqn:Es; [|discriminate].
    apply sleep_returns in Es. subst w2.
    apply IH in H. destruct H as [evs2 [Hext2 Hfound]].
    pose proof E as Hrun. apply retry_loop_run in Hrun.
    destruct Hrun as [evs1 [Hext1 _]].
    assert (Hext : extends w (after_sleep w1 1) (evs1 ++ [Slept 1]))
      by (apply (extends_trans w w1 _ evs1 [Slept 1]);
          [exact Hext1 | apply extends_sleep]).
    exists ((evs1 ++ [Slept 1]) ++ evs2).
    split; [exact (extends_trans _ _ _ _ _ Hext Hext2)|].
    intros u Hu. destruct (Hfound u Hu) as [Hacc | [s [c' [Hc [Hs H]]]]].
    + destruct response as [r|]; [|now left].
      destruct (status_code r =? 200)%Z eqn:E200; [|now left].
      apply Z.eqb_eq in E200. apply harvest_from in Hacc.
      destruct Hacc as [Hacc | [product_data [items [s [Hd [Hi [Hin H]]]]]]];
        [now left|].
      right. exists s, c. split; [now left|]. split; [|exact H].
      apply (served_within w w w1 w' [] ([Slept 1] ++ evs2));
        [apply extends_refl | |].
      * apply (extends_trans w1 (after_sleep w1 1) w' [Slept 1] evs2);
          [apply extends_sleep | exact Hext2].
      * exact (retry_served w w1 _ r "product_urls" product_data items (PStr s)
                 E E200 Hd Hi Hin).
    + right. exists s, c'. split; [now right|]. split; [|exact H].
      exact (served_within w (after_sleep w1 1) w' w' _ []
               _ _ _ Hext (extends_refl w') Hs).
Qed.

Lemma strip_queries_from (product_urls : list str) (acc : set str) (P : str -> Prop) :
  all_in P acc ->
  (forall url, In url product_urls -> P (split_head url "?")) ->
  all_in P
    (fold_left (fun unique_urls url => set_add str_dec (split_head url "?") unique_urls)
               product_urls acc).
Proof.
  revert acc. induction product_urls as [|url urls IH]; intros acc Hacc Hall; simpl.
  - exact Hacc.
  - apply IH.
    + intros u Hu. apply set_add_elim in Hu. destruct Hu as [-> | Hu].
      * apply Hall. now left.
      * now apply Hacc.
    + intros u Hu. apply Hall. now right.
Qed.

Lemma fold_set_add_nodup (product_urls : list str) (acc : set str) :
  NoDup acc ->
  NoDup (fold_left (fun unique_urls url =>
                      set_add str_dec (split_head url "?") unique_urls)
                   product_urls acc).
Proof.
  revert acc. induction product_urls as [|url urls IH]; intros acc Hacc; simpl.
  - exact Hacc.
  - apply IH. now apply set_add_nodup.
Qed.

(** The second deduplication pass leaves no duplicate. *)
Lemma strip_queries_nodup (product_urls : list str) :
  NoDup (strip_queries product_urls).
Proof. apply fold_set_add_nodup. constructor. Qed.

Lemma candidate_primary (w w' : world) (url : str) :
  candidate w w' collection_urls url -> primary_url w w' (split_head url "?").
Proof.
  intros [s [c [Hc [Hs [Hne [Hp ->]]]]]]. split; [|split].
  - apply split_head_clean. discriminate.
  - apply split_head_not_rooted, qualify_not_rooted.
  - exists s, c. repeat (split; [assumption|]). split; [reflexivity|].
    intros H. apply is_absolute_split_head. now apply qualify_absolute.
Qed.

Section Fallback.

Variable py_repr : pyval -> str.

Lemma collect_fallback_from (urls : list pyval) (u : str) :
  forall (acc found : list str),
    collect_fallback py_repr urls acc = Ok found ->
    In u found ->
    In u acc \/
    exists s, In (PStr s) urls /\ s <> "" /\
              py_in "/products/" s = true /\ u = qualify s.
Proof.
  induction urls as [|url urls IH]; intros acc found H Hu.
  - cbn [collect_fallback] in H. injection H as <-. now left.
  - cbn [collect_fallback] in H.
    destruct (truthy url && py_in "/products/" (py_str py_repr url)) eqn:E.
    + destruct url as [| | | |s| |]; try discriminate. cbn [py_str truthy] in E.
      apply andb_true_iff in E. destruct E as [Hne E].
      apply negb_true_iff, str_eqb_neq in Hne.
      destruct (IH _ _ H Hu) as [Hin | [s' [Hin H']]].
      * apply in_app_or in Hin. destruct Hin as [Hin | [<- | []]].
        -- now left.
        -- right. exists s. split; [now left | auto].
      * right. exists s'. split; [now right | exact H'].
    + destruct (IH _ _ H Hu) as [Hin | [s' [Hin H']]].
      * now left.
      * right. exists s'. split; [now right | exact H'].
Qed.

Lemma discover_fallback_urls_shape (w w' : world) (urls : list str) :
  discover_fallback_urls py_repr w = (Ok urls, w') ->
  all_in (fallback_url w w') urls.
Proof.
  unfold discover_fallback_urls, bind. intros H.
  destruct (make_request_with_retry FIRECRAWL_API_URL
              (scrape_payload BASE_URL fallback_prompt) default_max_retries w)
    as [[response|e] w1] eqn:E; [|discriminate].
  destruct response as [r|]; [|returned H; intros u []].
  destruct (status_code r =? 200)%Z eqn:E200; [|returned H; intros u []].
  apply Z.eqb_eq in E200.
  destruct (fallback_urls_of py_repr r) as [found|e] eqn:Ef;
    returned H; [|intros u []].
  unfold fallback_urls_of, bind_result in Ef.
  destruct (product_data_of r) as [product_data|] eqn:Ed; [|discriminate].
  destruct (py_iter _) as [items|] eqn:Ei; [|discriminate].
  intros u Hu.
  destruct (collect_fallback_from items u [] found Ef Hu)
    as [[] | [s [Hin [Hne [Hp ->]]]]].
  split; [now apply qualify_keeps_products|].
  split; [apply qualify_not_rooted|].
  exists s. split.
  - exact (retry_served w w1 _ r "urls" product_data items (PStr s)
             E E200 Ed Ei Hin).
  - repeat (split; [assumption|]). split; [reflexivity | apply qualify_absolute].
Qed.

(** C3 (amended).  Every URL the discovery returns comes from a string [s]
    that the API listed during the run, in a response with status 200: on
    the primary path under "product_urls" in the answer to the scrape of
    one of the twelve collections, on the fallback path under "urls" in the
    answer to the fallback request.  On the primary path [s] is not empty,
    [s] qualified (prefixed with the base URL when it starts with "/") holds
    "/products/", and the URL is the qualified string cut at its first "?":
    it holds no "?", and no URL is returned twice; on the fallback path [s]
    is not empty and holds "/products/", and the URL is [s] qualified, which
    holds "/products/" too.  On both paths the URL does not start with "/",
    and it is absolute whenever [s] is absolute or starts with "/". *)
Theorem discovered_urls_shape (w w' : world) (urls : list str) :
  discover_product_urls py_repr w = (Ok urls, w') ->
  (Forall (primary_url w w') urls /\ NoDup urls) \/
  Forall (fallback_url w w') urls.
Proof.
  unfold discover_product_urls. unfold bind at 1. intros H.
  destruct (scan_collections collection_urls (empty_set str) w)
    as [[found|e] w1] eqn:E; [|discriminate].
  apply scan_collections_candidates in E. destruct E as [evs [Hext Hfound]].
  destruct found as [|u0 found'].
  - right. apply Forall_forall. intros u Hu.
    destruct (discover_fallback_urls_shape w1 w' urls H u Hu)
      as [Hp [Hr [s [Hs Hrest]]]].
    split; [exact Hp|]. split; [exact Hr|]. exists s. split; [|exact Hrest].
    exact (served_within w w1 w' w' _ [] _ _ _ Hext (extends_refl w') Hs).
  - left. returned H. split.
    + apply Forall_forall.
      unfold strip_queries. apply strip_queries_from; [intros u []|].
      intros u Hu. apply candidate_primary.
      destruct (Hfound u Hu) as [[] | Hc]. exact Hc.
    + apply strip_queries_nodup.
Qed.

End Fallback.

(** ** Concrete runs *)

(** C3 (as stated, refuted).  On the primary path a relative URL of the API
    that holds "/products/" is returned as it is, not absolute, and a URL
    that holds "/products/" only in its query string loses it; on the
    fallback path (request 12, after twelve collections without a result)
    the query string stays. *)
Lemma discovery_returns_other_urls :
  fst (discover_product_urls no_repr
         (world_answering 0
            (json_response "product_urls"
               [ "collections/rugs/products/kilim";
                 "https://www.the-citizenry.com/pages/about?from=/products/rug" ])))
  = Ok [ "collections/rugs/products/kilim";
         "https://www.the-citizenry.com/pages/about" ] /\
  is_absolute "collections/rugs/products/kilim" = false /\
  py_in "/products/" "https://www.the-citizenry.com/pages/about" = false /\
  fst (discover_product_urls no_repr
         (world_answering 12 (json_response "urls" ["/products/rug?variant=1"])))
  = Ok ["https://www.the-citizenry.com/products/rug?variant=1"] /\
  py_in "?" "https://www.the-citizenry.com/products/rug?variant=1" = true.
Proof. repeat split; vm_compute; reflexivity. Qed.

Lemma discovered_urls_shape_witness :
  (Forall (primary_url
             (world_answering 0
                (json_response "product_urls"
                   [ "/products/rug?variant=1"; "/products/throw";
                     "/products/rug" ]))
             (snd (discover_product_urls no_repr
                     (world_answering 0
                        (json_response "product_urls"
                           [ "/products/rug?variant=1"; "/products/throw";
                             "/products/rug" ])))))
     [ "https://www.the-citizenry.com/products/rug";
       "https://www.the-citizenry.com/products/throw" ] /\
   NoDup [ "https://www.the-citizenry.com/products/rug";
           "https://www.the-citizenry.com/products/throw" ]) \/
  Forall (fallback_url
            (world_answering 0
               (json_response "product_urls"
                  [ "/products/rug?variant=1"; "/products/throw";
                    "/products/rug" ]))
            (snd (discover_product_urls no_repr
                    (world_answering 0
                       (json_response "product_urls"
                          [ "/products/rug?variant=1"; "/products/throw";
                            "/products/rug" ])))))
    [ "https://www.the-citizenry.com/products/rug";
      "https://www.the-citizenry.com/products/throw" ].
Proof.
  apply (discovered_urls_shape no_repr
           (world_answering 0
              (json_response "product_urls"
                 [ "/products/rug?variant=1"; "/products/throw";
                   "/products/rug" ]))
           (snd (discover_product_urls no_repr
                   (world_answering 0
                      (json_response "product_urls"
                         [ "/products/rug?variant=1"; "/products/throw";
                           "/products/rug" ]))))).
  vm_compute. reflexivity.
Defined.

End DiscoveryProps.

(* ================================================================== *)
(** * Further properties of the retry client *)

Module RetryMore.
Import Scraper RetrySpec RetryProps BackoffSpec.

(** X1.  A response the retry client hands to its caller is never a 429 and
    never a server error: its status is neither 429 nor 500 or more, and it
    is the answer to the last request the call sent. *)
Theorem retry_returns_only_final_responses
        (url : str) (payload : pyval) (max_retries : nat)
        (w w' : world) (r : response) :
  make_request_with_retry url payload max_retries w = (Ok (Some r), w') ->
  status_code r <> 429%Z /\ (status_code r < 500)%Z /\
  server w (posts w' - 1) url payload = Responded r.
Proof.
  intros H. apply retry_loop_props in H.
  destruct H as [_ [_ [_ [_ [_ [_ [Hr _]]]]]]].
  destruct (Hr r eq_refl) as [A [B [_ D]]]. now repeat split.
Qed.

Lemma retry_returns_only_final_responses_witness :
  status_code not_found <> 429%Z /\ (status_code not_found < 500)%Z /\
  server (scripted_world [unavailable; not_found])
         (posts (snd (make_request_with_retry "u" PNone 3
                        (scripted_world [unavailable; not_found]))) - 1)
         "u" PNone
  = Responded not_found.
Proof.
  apply (retry_returns_only_final_responses "u" PNone 3
           (scripted_world [unavailable; not_found])
           (snd (make_request_with_retry "u" PNone 3
                   (scripted_world [unavailable; not_found])))
           not_found).
  vm_compute. reflexivity.
Defined.

(** X2.  Whatever the server and the clock do, a call with a budget of
    [max_retries] sends at most [max_retries] requests; it returns [None]
    only after exactly [max_retries] requests; it only adds to the history;
    and an exception that escapes it is one of the wait: [ValueError] (from
    [int] on the header, or a negative length), [OverflowError] or [OSError]
    (from [time.sleep] on a length too long). *)
Theorem retry_request_budget
        (url : str) (payload : pyval) (max_retries : nat)
        (w w' : world) (res : result (option response)) :
  make_request_with_retry url payload max_retries w = (res, w') ->
  posts w <= posts w' <= posts w + max_retries /\
  (res = Ok None -> posts w' = posts w + max_retries) /\
  (exists evs, events w' = events w ++ evs) /\
  (forall e, res = Raise e ->
     e = ValueError \/ e = OverflowError \/ e = OSError).
Proof.
  intros H. apply retry_loop_props in H.
  destruct H as [_ [_ [Hp [_ [He [Hn [_ Hx]]]]]]]. now repeat split.
Qed.

Lemma retry_request_budget_witness :
  posts (snd (make_request_with_retry "u" PNone 3
                (scripted_world [rate_limited NoRetryAfter; unavailable]))) <= 3.
Proof.
  pose proof (retry_request_budget "u" PNone 3
                (scripted_world [rate_limited NoRetryAfter; unavailable])
                (snd (make_request_with_retry "u" PNone 3
                        (scripted_world [rate_limited NoRetryAfter; unavailable])))
                (fst (make_request_with_retry "u" PNone 3
                        (scripted_world [rate_limited NoRetryAfter; unavailable])))
                (surjective_pairing _)) as [[_ H] _].
  exact H.
Defined.

Lemma backoff_events_step (url : str) (payload : pyval) (attempt remaining : nat) :
  backoff_events url payload attempt (S remaining)
  = [Posted url payload; Slept (30 * 2 ^ Z.of_nat attempt)]
    ++ backoff_events url payload (S attempt) remaining.
Proof. reflexivity. Qed.

Lemma retry_loop_exhausts (url : str) (payload : pyval) (remaining : nat) :
  forall (attempt : nat) (w : world),
    (forall k, k < remaining -> failing (server w (posts w + k) url payload)) ->
    (forall k, k < remaining -> takes w (30 * 2 ^ Z.of_nat (attempt + k))) ->
    exists w',
      retry_loop url payload remaining attempt w = (Ok None, w') /\
      posts w' = posts w + remaining /\
      events w' = events w ++ backoff_events url payload attempt remaining.
Proof.
  induction remaining as [|n IH]; intros attempt w Hfail Htakes.
  - exists w. cbn [retry_loop]. unfold ret, backoff_events. simpl.
    rewrite app_nil_r. repeat split. lia.
  - set (w1 := after_sleep (after_post w url payload) (30 * 2 ^ Z.of_nat attempt)).
    assert (Hstep : retry_loop url payload (S n) attempt w
                    = retry_loop url payload n (S attempt) w1).
    { pose proof (Hfail 0 ltac:(lia)) as H0. rewrite Nat.add_0_r in H0.
      pose proof (Htakes 0 ltac:(lia)) as T0. rewrite Nat.add_0_r in T0.
      destruct H0 as [H0 | [r [H0 H500]]].
      - now apply retry_step_failed.
      - now apply (retry_step_5xx url payload n attempt w r). }
    destruct (IH (S attempt) w1) as [w' [Hrun [Hp He]]].
    { intros k Hk. unfold w1. cbn [after_sleep after_post server posts].
      replace (S (posts w) + k) with (posts w + S k) by lia.
      apply Hfail. lia. }
    { intros k Hk. replace (S attempt + k) with (attempt + S k) by lia.
      exact (Htakes (S k) ltac:(lia)). }
    exists w'. rewrite Hstep. split; [exact Hrun|].
    unfold w1 in Hp, He. cbn [after_sleep after_post server posts events] in Hp, He.
    split; [lia|]. rewrite He, backoff_events_step. now rewrite <- !app_assoc.
Qed.

(** X3.  When every one of the [max_retries] requests fails (a transport
    failure or a status of 500 or more) and [time.sleep] takes each of the
    backoff lengths 30 * 2^k for k below [max_retries], the budget is at
    most 29 (30 * 2^29 is beyond [SLEEP_MAX]), the call returns [None] after
    exactly [max_retries] requests, and it has slept 30 * 2^k seconds after
    the k-th of them, the last one included. *)
Theorem retry_exhausts_with_backoff
        (url : str) (payload : pyval) (max_retries : nat) (w : world) :
  (forall k, k < max_retries -> failing (server w (posts w + k) url payload)) ->
  (forall k, k < max_retries -> takes w (30 * 2 ^ Z.of_nat k)) ->
  max_retries <= 29 /\
  exists w',
    make_request_with_retry url payload max_retries w = (Ok None, w') /\
    posts w' = posts w + max_retries /\
    events w' = events w ++ backoff_events url payload 0 max_retries.
Proof.
  intros Hfail Htakes. split.
  - destruct (le_lt_dec max_retries 29) as [H | H]; [exact H|].
    destruct (Htakes 29 H) as [[_ Hmax] _]. vm_compute in Hmax.
    exfalso. apply Hmax. reflexivity.
  - exact (retry_loop_exhausts url payload max_retries 0 w Hfail Htakes).
Qed.

Lemma retry_exhausts_with_backoff_witness :
  exists w',
    make_request_with_retry "u" PNone 3 (scripted_world [unavailable]) = (Ok None, w') /\
    posts w' = 3 /\
    events w' = [Posted "u" PNone; Slept 30; Posted "u" PNone; Slept 60;
                 Posted "u" PNone; Slept 120].
Proof.
  refine (proj2 (retry_exhausts_with_backoff "u" PNone 3
                   (scripted_world [unavailable]) _ _)).
  - intros k Hk. destruct k as [|[|[|k]]]; [right | left | left | lia].
    + exists unavailable. split; [reflexivity | simpl; lia].
    + reflexivity.
    + reflexivity.
  - intros k Hk. destruct k as [|[|[|k]]]; [| | | lia];
      (split; [unfold SLEEP_MAX; simpl; lia | reflexivity]).
Defined.



End RetryMore.

(* ================================================================== *)
(** * Further properties of URL discovery *)

Module DiscoveryMore.
Import Scraper RetrySpec RetryProps RetryMore DiscoverySpec CrawlSpec PyStrFacts.

Lemma add_product_url_iff (acc : set str) (url : pyval) (u : str) :
  set_In u (add_product_url acc url) <->
  set_In u acc \/
  exists s, url = PStr s /\ is_product_link s = true /\ u = qualify s.
Proof.
  unfold add_product_url.
  destruct url as [| | | |s| |];
    try (split; [now left | intros [H | [s [H _]]]; [exact H | discriminate]]).
  assert (Hlink : is_product_link s
                  = truthy (PStr s) && py_in "/products/" (qualify s))
    by reflexivity.
  destruct (truthy (PStr s)); cbn [andb] in Hlink.
  - destruct (py_in "/products/" (qualify s)) eqn:Ep.
    + rewrite set_add_iff. split.
      * intros [-> | H]; [right; exists s; auto | now left].
      * intros [H | [s' [E [_ ->]]]]; [now right|]. injection E as <-. now left.
    + split; [now left|]. intros [H | [s' [E [Hp _]]]]; [exact H|].
      injection E as <-. congruence.
  - split; [now left|]. intros [H | [s' [E [Hp _]]]]; [exact H|].
    injection E as <-. congruence.
Qed.

Lemma fold_add_product_url_iff (urls : list pyval) (u : str) :
  forall acc : set str,
    set_In u (fold_left add_product_url urls acc) <->
    set_In u acc \/
    exists s, In (PStr s) urls /\ is_product_link s = true /\ u = qualify s.
Proof.
  induction urls as [|url urls IH]; intros acc; cbn [fold_left].
  - split; [now left | intros [H | [s [[] _]]]; exact H].
  - rewrite IH, add_product_url_iff. split.
    + intros [[H | [s [-> [Hp ->]]]] | [s [Hin H]]].
      * now left.
      * right. exists s. split; [now left | auto].
      * right. exists s. split; [now right | exact H].
    + intros [H | [s [[-> | Hin] [Hp ->]]]].
      * left. now left.
      * left. right. now exists s.
      * right. now exists s.
Qed.

Lemma fold_add_product_url_nodup (urls : list pyval) :
  forall acc : set str, NoDup acc -> NoDup (fold_left add_product_url urls acc).
Proof.
  induction urls as [|url urls IH]; intros acc Hacc; cbn [fold_left].
  - exact Hacc.
  - apply IH. unfold add_product_url. destruct url; try exact Hacc.
    destruct (truthy (PStr s)); [|exact Hacc].
    destruct (py_in "/products/" (qualify s)); [|exact Hacc].
    now apply set_add_nodup.
Qed.

(** X4.  From a response whose product list can be read, the primary path
    adds to its set exactly the strings of the list that are not empty and
    hold "/products/" once qualified, each qualified with the base URL when
    it starts with "/"; nothing already gathered is lost, other values of
    the list are skipped, and the set stays free of duplicates. *)
Theorem harvest_collects_product_links
        (r : response) (acc : set str)
        (product_data : list (str * pyval)) (urls : list pyval) :
  product_data_of r = Ok product_data ->
  py_iter (dict_get product_data "product_urls" (PList [])) = Some urls ->
  NoDup acc ->
  (forall u, set_In u (harvest r acc) <->
     set_In u acc \/
     exists s, In (PStr s) urls /\ is_product_link s = true /\ u = qualify s) /\
  NoDup (harvest r acc).
Proof.
  intros Hd Hi Hacc. unfold harvest. rewrite Hd, Hi. split.
  - intros u. apply fold_add_product_url_iff.
  - now apply fold_add_product_url_nodup.
Qed.

Lemma harvest_collects_product_links_witness :
  set_In "https://www.the-citizenry.com/products/rug"
         (harvest (json_response "product_urls" ["/products/rug"; "/pages/about"]) [])
  <->
  set_In "https://www.the-citizenry.com/products/rug" [] \/
  exists s, In (PStr s) (map PStr ["/products/rug"; "/pages/about"]) /\
            is_product_link s = true /\
            "https://www.the-citizenry.com/products/rug" = qualify s.
Proof.
  apply (proj1 (harvest_collects_product_links
                  (json_response "product_urls" ["/products/rug"; "/pages/about"]) []
                  [("product_urls", PList (map PStr ["/products/rug"; "/pages/about"]))]
                  (map PStr ["/products/rug"; "/pages/about"])
                  eq_refl eq_refl (NoDup_nil str))).
Defined.

Lemma fold_strip_iff (product_urls : list str) (u : str) :
  forall acc : set str,
    set_In u (fold_left (fun unique_urls url =>
                           set_add str_dec (split_head url "?") unique_urls)
                        product_urls acc) <->
    set_In u acc \/ exists url, In url product_urls /\ u = split_head url "?".
Proof.
  induction product_urls as [|url urls IH]; intros acc; cbn [fold_left].
  - split; [now left | intros [H | [c [[] _]]]; exact H].
  - rewrite IH, set_add_iff. split.
    + intros [[-> | H] | [c [Hin ->]]].
      * right. exists url. split; [now left | reflexivity].
      * now left.
      * right. exists c. split; [now right | reflexivity].
    + intros [H | [c [[-> | Hin] ->]]].
      * left. now right.
      * left. now left.
      * right. now exists c.
Qed.

(** X5.  The second deduplication pass returns exactly the URLs of its input
    cut at their first "?", each once: none is lost, none is invented, and
    URLs that differ only in their query string are merged into one. *)
Theorem strip_queries_exact (product_urls : list str) :
  (forall u, In u (strip_queries product_urls) <->
     exists url, In url product_urls /\ u = split_head url "?") /\
  NoDup (strip_queries product_urls) /\
  (forall url, In url product_urls ->
     count_occ str_dec (strip_queries product_urls) (split_head url "?") = 1).
Proof.
  assert (Hiff : forall u, In u (strip_queries product_urls) <->
                   exists url, In url product_urls /\ u = split_head url "?").
  { intros u. unfold strip_queries. rewrite fold_strip_iff. split.
    - intros [[] | H]. exact H.
    - intros H. now right. }
  assert (Hnd : NoDup (strip_queries product_urls))
    by apply DiscoveryProps.strip_queries_nodup.
  split; [exact Hiff|]. split; [exact Hnd|].
  intros url Hin. apply NoDup_count_occ'; [exact Hnd|].
  apply Hiff. now exists url.
Qed.

Lemma scan_collections_requests (collections : list str) :
  forall (acc found : set str) (w w' : world),
    scan_collections collections acc w = (Ok found, w') ->
    posts w + length collections <= posts w' <= posts w + 3 * length collections.
Proof.
  induction collections as [|c cs IH]; intros acc found w w' H.
  - cbn [scan_collections] in H. unfold ret in H. injection H as _ <-. simpl. lia.
  - cbn [scan_collections] in H. unfold bind at 1 in H.
    destruct (make_request_with_retry FIRECRAWL_API_URL
                (scrape_payload c collection_prompt) default_max_retries w)
      as [[response|e] w1] eqn:E; [|discriminate].
    apply retry_loop_props in E.
    destruct E as [_ [_ [Hp [Hlow _]]]].
    specialize (Hlow ltac:(unfold default_max_retries; lia)).
    unfold default_max_retries in Hp.
    unfold bind at 1 in H.
    destruct (sleep 1 w1) as [[[]|e] w2] eqn:Es; [|discriminate].
    apply sleep_returns in Es. subst w2.
    apply IH in H. cbn [after_sleep posts] in H. cbn [length]. lia.
Qed.

(** X6.  A discovery that returns sends at least 12 requests, one per
    collection, and at most 39: three per collection and three for the
    fallback. *)
Theorem discovery_request_count
        (py_repr : pyval -> str) (w w' : world) (urls : list str) :
  discover_product_urls py_repr w = (Ok urls, w') ->
  posts w + 12 <= posts w' <= posts w + 39.
Proof.
  unfold discover_product_urls. unfold bind at 1. intros H.
  destruct (scan_collections collection_urls (empty_set str) w)
    as [[found|e] w1] eqn:E; [|discriminate].
  apply scan_collections_requests in E.
  change (length collection_urls) with 12 in E.
  destruct found as [|u0 found'].
  - unfold discover_fallback_urls, bind in H.
    destruct (make_request_with_retry FIRECRAWL_API_URL
                (scrape_payload BASE_URL fallback_prompt) default_max_retries w1)
      as [[response|e] w2] eqn:E2; [|discriminate].
    apply retry_loop_props in E2. destruct E2 as [_ [_ [Hp _]]].
    unfold default_max_retries in Hp.
    assert (w' = w2).
    { destruct response as [r|].
      - destruct (status_code r =? 200)%Z.
        + destruct (fallback_urls_of py_repr r); unfold ret in H; congruence.
        + unfold ret in H. congruence.
      - unfold ret in H. congruence. }
    subst w'. lia.
  - unfold ret in H. injection H as _ <-. lia.
Qed.

Lemma discovery_request_count_witness :
  0 + 12 <= posts (snd (discover_product_urls no_repr
                         (world_answering 0
                            (json_response "product_urls" ["/products/rug"]))))
  <= 0 + 39.
Proof.
  apply (discovery_request_count no_repr
           (world_answering 0 (json_response "product_urls" ["/products/rug"]))
           (snd (discover_product_urls no_repr
                   (world_answering 0
                      (json_response "product_urls" ["/products/rug"]))))
           ["https://www.the-citizenry.com/products/rug"]).
  vm_compute. reflexivity.
Defined.

Lemma collect_fallback_strings (py_repr : pyval -> str) (ss : list str) :
  forall acc : list str,
    collect_fallback py_repr (map PStr ss) acc
    = Ok (acc ++ map qualify (filter mentions_products ss)).
Proof.
  induction ss as [|s ss IH]; intros acc; cbn [map collect_fallback filter].
  - now rewrite app_nil_r.
  - cbn [truthy py_str].
    change (negb (str_eqb s "") && py_in "/products/" s) with (mentions_products s).
    destruct (mentions_products s).
    + rewrite IH, <- app_assoc. reflexivity.
    + apply IH.
Qed.

(** X7.  From a response whose "urls" list holds strings only, the fallback
    path returns, in the order of the list and with its duplicates, the
    strings that are not empty and hold "/products/", each qualified with
    the base URL when it starts with "/". *)
Theorem fallback_keeps_order_and_duplicates
        (py_repr : pyval -> str) (r : response)
        (product_data : list (str * pyval)) (ss : list str) :
  product_data_of r = Ok product_data ->
  dict_get product_data "urls" (PList []) = PList (map PStr ss) ->
  fallback_urls_of py_repr r = Ok (map qualify (filter mentions_products ss)).
Proof.
  intros Hd Hu. unfold fallback_urls_of. rewrite Hd. cbn [bind_result].
  rewrite Hu. cbn [py_iter]. apply collect_fallback_strings.
Qed.

Lemma fallback_keeps_order_and_duplicates_witness :
  fallback_urls_of no_repr
    (json_response "urls" ["/products/rug"; "/pages/about"; "/products/rug"])
  = Ok [ "https://www.the-citizenry.com/products/rug";
         "https://www.the-citizenry.com/products/rug" ].
Proof.
  apply (fallback_keeps_order_and_duplicates no_repr
           (json_response "urls" ["/products/rug"; "/pages/about"; "/products/rug"])
           [("urls", PList (map PStr ["/products/rug"; "/pages/about"; "/products/rug"]))]
           ["/products/rug"; "/pages/about"; "/products/rug"]);
    reflexivity.
Defined.

Lemma never_ok_same (w w' : world) :
  server w' = server w -> timer w' = timer w -> never_ok w -> never_ok w'.
Proof.
  intros Hs Ht Hw n url payload r Hr. rewrite Hs in Hr.
  destruct (Hw n url payload r Hr) as [H200 Hhdr]. split; [exact H200|].
  intros E. destruct (Hhdr E) as [seconds [Hwait Htake]].
  exists seconds. split; [exact Hwait|]. unfold takes in *. now rewrite Ht.
Qed.

Lemma takes_same (w w' : world) (seconds : Z) :
  timer w' = timer w -> takes w seconds -> takes w' seconds.
Proof. intros Ht H. unfold takes in *. now rewrite Ht. Qed.

Lemma retry_loop_never_ok (url : str) (payload : pyval) (remaining : nat) :
  forall (attempt : nat) (w : world),
    never_ok w ->
    (forall k, k < remaining -> takes w (30 * 2 ^ Z.of_nat (attempt + k))) ->
    exists res w',
      retry_loop url payload remaining attempt w = (Ok res, w') /\
      server w' = server w /\ timer w' = timer w /\
      (res = None \/ exists r, res = Some r /\ status_code r <> 200%Z).
Proof.
  induction remaining as [|n IH]; intros attempt w Hw Hbackoff.
  - exists None, w. cbn [retry_loop]. unfold ret. repeat split. now left.
  - assert (Hgo : forall seconds,
               retry_loop url payload (S n) attempt w
               = retry_loop url payload n (S attempt)
                   (after_sleep (after_post w url payload) seconds) ->
               exists res w',
                 retry_loop url payload (S n) attempt w = (Ok res, w') /\
                 server w' = server w /\ timer w' = timer w /\
                 (res = None \/ exists r, res = Some r /\ status_code r <> 200%Z)).
    { intros seconds Hstep.
      destruct (IH (S attempt) (after_sleep (after_post w url payload) seconds))
        as [res [w' [Hrun [Hs [Ht Hres]]]]].
      - apply (never_ok_same w); [reflexivity | reflexivity | exact Hw].
      - intros k Hk. apply (takes_same w); [reflexivity|].
        replace (S attempt + k) with (attempt + S k) by lia.
        apply Hbackoff. lia.
      - exists res, w'. rewrite Hstep. split; [exact Hrun|].
        split; [exact Hs|]. split; [exact Ht | exact Hres]. }
    assert (Hnow : takes w (30 * 2 ^ Z.of_nat attempt)).
    { pose proof (Hbackoff 0 ltac:(lia)) as H. now rewrite Nat.add_0_r in H. }
    destruct (server w (posts w) url payload) as [r|] eqn:Eo.
    + destruct (Hw _ _ _ _ Eo) as [H200 Hhdr].
      destruct (Z.eq_dec (status_code r) 429) as [E429 | E429].
      * destruct (Hhdr E429) as [seconds [Hwait Htake]].
        apply (Hgo seconds).
        now apply (retry_step_429 url payload n attempt w r seconds).
      * destruct (Z_lt_ge_dec (status_code r) 500) as [Hlt | Hge].
        -- exists (Some r), (after_post w url payload).
           rewrite (retry_step_return url payload n attempt w r Eo E429 Hlt).
           repeat split. right. now exists r.
        -- apply (Hgo (30 * 2 ^ Z.of_nat attempt)%Z).
           apply (retry_step_5xx url payload n attempt w r Eo); [lia | exact Hnow].
    + apply (Hgo (30 * 2 ^ Z.of_nat attempt)%Z). now apply retry_step_failed.
Qed.

Lemma patient_backoff (w : world) :
  patient w ->
  forall k, k < default_max_retries -> takes w (30 * 2 ^ Z.of_nat (0 + k)).
Proof.
  intros [_ [H30 [H60 H120]]] k Hk. unfold default_max_retries in Hk.
  destruct k as [|[|[|k]]]; [exact H30 | exact H60 | exact H120 | lia].
Qed.

Lemma patient_same (w w' : world) :
  timer w' = timer w -> patient w -> patient w'.
Proof.
  intros Ht [H1 [H30 [H60 H120]]]. unfold patient.
  split; [|split; [|split]]; apply (takes_same w); assumption.
Qed.

Lemma scan_collections_never_ok (collections : list str) :
  forall (acc : set str) (w : world),
    never_ok w -> patient w ->
    exists w', scan_collections collections acc w = (Ok acc, w') /\
               server w' = server w /\ timer w' = timer w.
Proof.
  induction collections as [|c cs IH]; intros acc w Hw Hp.
  - exists w. now repeat split.
  - cbn [scan_collections]. unfold bind at 1.
    destruct (retry_loop_never_ok FIRECRAWL_API_URL
                (scrape_payload c collection_prompt) default_max_retries 0 w Hw
                (patient_backoff w Hp))
      as [res [w1 [Hrun [Hs [Ht Hres]]]]].
    unfold make_request_with_retry. rewrite Hrun.
    unfold bind at 1.
    rewrite (sleep_ok 1 w1)
      by (apply (takes_same w); [exact Ht | exact (proj1 Hp)]).
    assert (Hw1 : never_ok (after_sleep w1 1))
      by (apply (never_ok_same w); assumption).
    assert (Hp1 : patient (after_sleep w1 1))
      by (apply (patient_same w); assumption).
    assert (Hacc : match res with
                   | Some r => if (status_code r =? 200)%Z then harvest r acc else acc
                   | None => acc
                   end = acc).
    { destruct Hres as [-> | [r [-> Hr]]]; [reflexivity|].
      apply Z.eqb_neq in Hr. now rewrite Hr. }
    rewrite Hacc. destruct (IH acc _ Hw1 Hp1) as [w' [Hscan [Hs' Ht']]].
    exists w'. split; [exact Hscan|].
    split; [rewrite Hs'; exact Hs | rewrite Ht'; exact Ht].
Qed.

(** X8.  When no request is ever answered with status 200 (transport
    failures, client or server errors, rate limits whose header gives a
    wait [time.sleep] takes) and [time.sleep] takes the pause between
    collections and the backoff lengths 30, 60 and 120, the discovery
    returns the empty list: neither the collections nor the fallback yield
    a URL, and no exception escapes. *)
Theorem discovery_without_success_is_empty
        (py_repr : pyval -> str) (w : world) :
  never_ok w -> patient w ->
  exists w', discover_product_urls py_repr w = (Ok [], w').
Proof.
  intros Hw Hp. unfold discover_product_urls. unfold bind at 1.
  destruct (scan_collections_never_ok collection_urls (empty_set str) w Hw Hp)
    as [w1 [Hscan [Hs Ht]]].
  rewrite Hscan. cbn [empty_set]. unfold discover_fallback_urls, bind.
  assert (Hw1 : never_ok w1) by (apply (never_ok_same w); assumption).
  assert (Hp1 : patient w1) by (apply (patient_same w); assumption).
  destruct (retry_loop_never_ok FIRECRAWL_API_URL
              (scrape_payload BASE_URL fallback_prompt) default_max_retries 0 w1 Hw1
              (patient_backoff w1 Hp1))
    as [res [w2 [Hrun [_ [_ Hres]]]]].
  unfold make_request_with_retry. rewrite Hrun. exists w2.
  destruct Hres as [-> | [r [-> Hr]]]; [reflexivity|].
  apply Z.eqb_neq in Hr. now rewrite Hr.
Qed.

Lemma discovery_without_success_is_empty_witness :
  exists w',
    discover_product_urls no_repr (constant_world RetrySpec.not_found) = (Ok [], w').
Proof.
  apply (discovery_without_success_is_empty no_repr (constant_world RetrySpec.not_found)).
  - intros n url payload r H. injection H as <-. split; [discriminate|].
    intros H. discriminate H.
  - unfold patient, takes, SLEEP_MAX.
    split; [|split; [|split]]; (split; [lia | reflexivity]).
Defined.

End DiscoveryMore.

(* ================================================================== *)
(** * Further properties of the text helpers *)

Module TextMore.
Import Scraper PyStrFacts TextSpec TextProps.

Lemma kept_not_separator (c : ascii) :
  kept c = true -> hyphen_or_space c = false -> isword c = true.
Proof.
  unfold kept, hyphen_or_space.
  destruct (isword c), (isspace c), (c =? "-")%char; simpl; congruence.
Qed.

Lemma underscore_is_word : isword "_"%char = true.
Proof. reflexivity. Qed.

Lemma word_not_separator (c : ascii) :
  isword c = true -> hyphen_or_space c = false.
Proof.
  destruct c as [[] [] [] [] [] [] [] []]; vm_compute; congruence.
Qed.

Lemma word_is_kept (c : ascii) : isword c = true -> kept c = true.
Proof. unfold kept. now intros ->. Qed.

Lemma re_sub_runs_words (s : str) :
  Forall (fun c => kept c = true) s ->
  Forall (fun c => isword c = true) (re_sub_runs hyphen_or_space "_" s) /\
  Forall (fun c => isword c = true) (re_sub_rest hyphen_or_space "_" s).
Proof.
  induction 1 as [|c s Hc Hs [IH1 IH2]]; [split; constructor|].
  cbn [re_sub_runs re_sub_rest].
  destruct (hyphen_or_space c) eqn:E.
  - split; [|exact IH2]. cbn [app]. constructor; [reflexivity | exact IH2].
  - pose proof (kept_not_separator c Hc E) as Hw.
    split; constructor; assumption.
Qed.

Lemma re_sub_runs_no_separator (s : str) :
  Forall (fun c => isword c = true) s ->
  re_sub_runs hyphen_or_space "_" s = s.
Proof.
  induction 1 as [|c s Hc Hs IH]; [reflexivity|].
  cbn [re_sub_runs]. rewrite (word_not_separator c Hc). now rewrite IH.
Qed.

Lemma filter_all {A} (f : A -> bool) (l : list A) :
  Forall (fun x => f x = true) l -> filter f l = l.
Proof.
  induction 1 as [|x l Hx Hl IH]; [reflexivity|].
  cbn [filter]. now rewrite Hx, IH.
Qed.

Lemma filter_none {A} (f : A -> bool) (l : list A) :
  Forall (fun x => f x = false) l -> filter f l = [].
Proof.
  induction 1 as [|x l Hx Hl IH]; [reflexivity|].
  cbn [filter]. now rewrite Hx.
Qed.

Lemma Forall_firstn_of {A} (P : A -> Prop) (n : nat) (l : list A) :
  Forall P l -> Forall P (firstn n l).
Proof.
  intros H. rewrite <- (firstn_skipn n l) in H.
  apply Forall_app in H. tauto.
Qed.

(** What [clean_filename] computes on a string that is not empty, with the
    first [re.sub] written as a filter. *)
Lemma clean_filename_str (name : str) :
  name <> "" ->
  clean_filename (PStr name)
  = Ok (firstn 50 (re_sub_runs hyphen_or_space "_" (filter kept name))).
Proof.
  intros Hne. unfold clean_filename. cbn [truthy].
  apply str_eqb_neq in Hne. rewrite Hne. cbn [negb].
  rewrite re_sub_class_delete. do 3 f_equal.
  apply filter_ext. intros c. unfold not_word_space_hyphen, kept.
  apply negb_involutive.
Qed.

(** X9.  Every file name [clean_filename] returns consists of word
    characters only (letters, digits, underscore): no whitespace, no hyphen,
    no dot, no path separator. *)
Theorem clean_filename_only_word_characters (name : pyval) (out : str) :
  clean_filename name = Ok out ->
  Forall (fun c => isword c = true) out /\
  ~ In "/"%char out /\ ~ In "."%char out /\ ~ In " "%char out.
Proof.
  intros H.
  assert (Hw : Forall (fun c => isword c = true) out).
  { unfold clean_filename in H. destruct (negb (truthy name)) eqn:Et.
    - injection H as <-. repeat constructor.
    - destruct name as [| | | |n| |]; try discriminate.
      assert (Hne : n <> "").
      { intros ->. discriminate Et. }
      assert (E : clean_filename (PStr n) = Ok out).
      { unfold clean_filename. now rewrite Et. }
      rewrite (clean_filename_str n Hne) in E.
      apply (f_equal (fun r => match r with Ok a => a | Raise _ => out end)) in E.
      rewrite <- E. apply Forall_firstn_of, re_sub_runs_words.
      apply Forall_forall. intros c Hc. apply filter_In in Hc. tauto. }
  split; [exact Hw|]. rewrite Forall_forall in Hw.
  repeat split; intros Hin; apply Hw in Hin; discriminate Hin.
Qed.

Lemma clean_filename_only_word_characters_witness :
  Forall (fun c => isword c = true) "Rio_Throw_Grey_2".
Proof.
  apply (clean_filename_only_word_characters
           (PStr "Rio Throw (Grey) #2") "Rio_Throw_Grey_2").
  vm_compute. reflexivity.
Defined.

(** X10.  The placeholder is used for a falsy name only: a name that is not
    empty but holds no word character, whitespace or hyphen (punctuation
    only) is cleaned to the empty file name. *)
Theorem clean_filename_of_punctuation_is_empty (name : str) :
  name <> "" ->
  Forall (fun c => kept c = false) name ->
  clean_filename (PStr name) = Ok "".
Proof.
  intros Hne Hall. rewrite (clean_filename_str name Hne).
  now rewrite (filter_none kept name Hall).
Qed.

Lemma clean_filename_of_punctuation_witness :
  clean_filename (PStr "(#!)") = Ok "".
Proof.
  apply (clean_filename_of_punctuation_is_empty "(#!)").
  - discriminate.
  - repeat constructor.
Defined.

(** X11.  A file name [clean_filename] returned, when it is not empty, is
    cleaned to itself. *)
Theorem clean_filename_idempotent (name : pyval) (out : str) :
  clean_filename name = Ok out ->
  out <> "" ->
  clean_filename (PStr out) = Ok out.
Proof.
  intros H Hne.
  assert (Hlen : length out <= 50).
  { unfold clean_filename in H. destruct (negb (truthy name)).
    - injection H as <-. vm_compute. lia.
    - destruct name; try discriminate.
      apply (f_equal (fun r => match r with Ok a => length a | Raise _ => 0 end)) in H.
      rewrite <- H. apply firstn_le_length. }
  assert (Hw : Forall (fun c => isword c = true) out).
  { assert (Hin : forall c, In c out -> isword c = true).
    { unfold clean_filename in H. destruct (negb (truthy name)) eqn:Et.
      - injection H as <-. intros c Hc.
        assert (Hall : Forall (fun c => isword c = true) "unknown_product")
          by repeat constructor.
        rewrite Forall_forall in Hall. now apply Hall.
      - destruct name as [| | | |n| |]; try discriminate.
        assert (Hn : n <> "") by (intros ->; discriminate Et).
        assert (E : clean_filename (PStr n) = Ok out)
          by (unfold clean_filename; now rewrite Et).
        rewrite (clean_filename_str n Hn) in E.
        apply (f_equal (fun r => match r with Ok a => a | Raise _ => out end)) in E.
        rewrite <- E.
        assert (Hall : Forall (fun c => isword c = true)
                         (firstn 50 (re_sub_runs hyphen_or_space "_" (filter kept n)))).
        { apply Forall_firstn_of, re_sub_runs_words.
          apply Forall_forall. intros c Hc. apply filter_In in Hc. tauto. }
        rewrite Forall_forall in Hall. exact Hall. }
    now apply Forall_forall. }
  rewrite (clean_filename_str out Hne).
  rewrite (filter_all kept out).
  - rewrite (re_sub_runs_no_separator out Hw). now rewrite firstn_all2.
  - apply Forall_forall. intros c Hc. apply word_is_kept.
    rewrite Forall_forall in Hw. now apply Hw.
Qed.

Lemma clean_filename_idempotent_witness :
  clean_filename (PStr "Rio_Throw_Grey_2") = Ok "Rio_Throw_Grey_2".
Proof.
  apply (clean_filename_idempotent (PStr "Rio Throw (Grey) #2") "Rio_Throw_Grey_2").
  - vm_compute. reflexivity.
  - discriminate.
Defined.

(** ** Keywords *)

Lemma extract_keywords_filter (text : str) :
  extract_keywords text = filter (fun kw => ci_occurs kw text) keywords.
Proof.
  destruct text as [|c text].
  - vm_compute. reflexivity.
  - transitivity (filter (fun kw => py_in (lower kw) (lower (c :: text))) keywords).
    + exact (fold_left_append_filter
               (fun kw => py_in (lower kw) (lower (c :: text))) keywords []).
    + apply filter_ext. intros kw. apply py_in_lower.
Qed.

Lemma ci_occurs_embedded (kw a text b : str) :
  ci_occurs kw text = true -> ci_occurs kw (a ++ text ++ b) = true.
Proof.
  rewrite !ci_occurs_iff. intros [x [m [y [-> Hm]]]].
  exists (a ++ x), m, (y ++ b). split; [|exact Hm].
  now rewrite <- !app_assoc.
Qed.

(** X12.  Putting a text inside a longer one loses no keyword; so the
    keywords of the name, of the description and of the sustainability text
    are all among the keywords of the text line 297 builds from them. *)
Theorem extract_keywords_monotone (a text b : str) :
  (forall kw, In kw (extract_keywords text) ->
              In kw (extract_keywords (a ++ text ++ b))) /\
  (forall name description sustainability kw,
     In kw (extract_keywords name) \/ In kw (extract_keywords description) \/
     In kw (extract_keywords sustainability) ->
     In kw (extract_keywords
              (name ++ " " ++ description ++ " " ++ sustainability))).
Proof.
  assert (Hmono : forall x t y kw,
             In kw (extract_keywords t) -> In kw (extract_keywords (x ++ t ++ y))).
  { intros x t y kw. rewrite !extract_keywords_filter, !filter_In.
    intros [Hin Hocc]. split; [exact Hin | now apply ci_occurs_embedded]. }
  split; [apply Hmono|].
  intros name description sustainability kw [H | [H | H]].
  - apply (Hmono [] name (" " ++ description ++ " " ++ sustainability)) in H.
    exact H.
  - apply (Hmono (name ++ " ") description (" " ++ sustainability)) in H.
    now rewrite <- app_assoc in H.
  - apply (Hmono (name ++ " " ++ description ++ " ") sustainability []) in H.
    rewrite app_nil_r in H. now rewrite <- !app_assoc in H.
Qed.

Lemma extract_keywords_monotone_witness :
  In "Handmade"
     (extract_keywords ("Rio Throw" ++ " " ++ "handmade in Peru" ++ " " ++ "")).
Proof.
  apply (proj2 (extract_keywords_monotone [] [] [])
           "Rio Throw" "handmade in Peru" "" "Handmade").
  right. left. vm_compute. left. reflexivity.
Defined.

End TextMore.

(* ================================================================== *)
(** * Further properties of the converter and of the CSV export *)

Module ConverterMore.
Import Converter PyStrFacts WhitespaceSpec WhitespaceFacts ConverterSpec
       ConverterProps CsvExport ExportSpec.

(** X13.  [clean_description] keeps, before collapsing whitespace, a prefix of
    the description that holds no marker, and never cuts before the earliest
    marker: the prefix is the whole description or reaches the earliest
    marker offset. *)
Theorem clean_description_keeps_marker_free_prefix (d : str) :
  exists prefix rest,
    d = prefix ++ rest /\
    has_marker prefix = false /\
    (rest = [] \/ exists k, earliest_marker_offset d = Some k /\ k <= length prefix) /\
    clean_description (PStr d) = Ok (collapse_whitespace prefix).
Proof.
  destruct (truncate_sections_bounds d) as [r [H1 [H2 H3]]].
  exists (truncate_sections d), r. repeat split; try assumption.
  apply clean_description_str.
Qed.

Lemma nonspace_not_space (c : ascii) : isspace c = false -> (" " =? c)%char = false.
Proof.
  intros H. destruct (" " =? c)%char eqn:E; [|reflexivity].
  apply Ascii.eqb_eq in E. subst c. discriminate H.
Qed.

Lemma no_double_space_word (w rest : str) :
  nonspace w -> py_in "  " (w ++ rest) = py_in "  " rest.
Proof.
  induction 1 as [|c w Hc Hw IH]; [reflexivity|].
  cbn [app py_in]. rewrite IH.
  cbn [startswith]. now rewrite (nonspace_not_space c Hc).
Qed.

Lemma no_double_space (ws : list str) :
  Forall is_word ws -> py_in "  " (join " " ws) = false.
Proof.
  induction 1 as [|w ws [Hne Hw] Hws IH]; [reflexivity|].
  destruct ws as [|w2 ws'].
  - cbn [join]. rewrite <- (app_nil_r w). now rewrite no_double_space_word.
  - change (join " " (w :: w2 :: ws')) with (w ++ " " ++ join " " (w2 :: ws')).
    rewrite no_double_space_word by assumption.
    change (" " ++ join " " (w2 :: ws')) with (" "%char :: join " " (w2 :: ws')).
    cbn [py_in]. rewrite IH, orb_false_r.
    pose proof (head_ok_join (w2 :: ws') Hws) as Hh.
    inversion Hws as [|? ? [Hne2 _] _]; subst.
    pose proof (join_not_empty " " w2 ws' Hne2) as Hj.
    destruct (join " " (w2 :: ws')) as [|j0 J]; [contradiction|].
    cbn [head_ok] in Hh. cbn [startswith].
    now rewrite (nonspace_not_space j0 Hh), andb_false_r.
Qed.

(** X14.  Whatever [clean_description] returns is a sequence of words joined
    by single spaces: it holds no line feed and no whitespace but single
    spaces, never two spaces in a row, and none at either end. *)
Theorem clean_description_output_shape (description : pyval) (q : str) :
  clean_description description = Ok q ->
  (exists ws, Forall is_word ws /\ q = join " " ws) /\
  (forall c, In c q -> isspace c = true -> c = " "%char) /\
  py_in "  " q = false /\
  strip q = q.
Proof.
  intros H.
  assert (Hj : exists ws, Forall is_word ws /\ q = join " " ws).
  { unfold clean_description in H. destruct (negb (truthy description)).
    - injection H as <-. exists []. split; [constructor | reflexivity].
    - destruct description as [| | | |d| |]; try discriminate.
      injection H as <-. apply collapse_whitespace_is_join. }
  split; [exact Hj|]. destruct Hj as [ws [Hws ->]].
  split; [|split].
  - intros c. now apply join_words_space.
  - now apply no_double_space.
  - now apply strip_join.
Qed.

Lemma clean_description_output_shape_witness :
  py_in "  " "Handwoven rug, made in Peru" = false /\
  strip "Handwoven rug, made in Peru" = "Handwoven rug, made in Peru".
Proof.
  destruct (clean_description_output_shape
              (PStr ("Handwoven  rug," ++ LF ++ "made in Peru "))
              "Handwoven rug, made in Peru") as [_ [_ [H1 H2]]].
  - vm_compute. reflexivity.
  - split; assumption.
Defined.

Lemma startswith_length (s p : str) :
  startswith s p = true -> length p <= length s.
Proof.
  intros H. apply startswith_iff in H. destruct H as [r ->].
  rewrite length_app. lia.
Qed.

Lemma replace_from_length (old new : str) :
  length new <= length old ->
  forall (s : str) (k : nat),
    length (replace_from old new k s) <= length s - k.
Proof.
  intros Hlen. induction s as [|c s IH]; intros k; cbn [replace_from].
  - simpl. lia.
  - destruct k as [|k].
    + destruct (startswith (c :: s) old) eqn:E.
      * apply startswith_length in E. cbn [length] in E.
        rewrite length_app. specialize (IH (length old - 1)).
        cbn [length]. lia.
      * cbn [length]. specialize (IH 0). lia.
    + specialize (IH k). cbn [length]. lia.
Qed.

Lemma replace_length (s old new : str) :
  old <> [] -> length new <= length old ->
  length (replace s old new) <= length s.
Proof.
  intros Hne Hlen. unfold replace. destruct old as [|a o]; [contradiction|].
  pose proof (replace_from_length (a :: o) new Hlen s 0). lia.
Qed.

Lemma total_length_push (w : str) (ws : list str) :
  total_length (push_word w ws) <= length w + 1 + total_length ws.
Proof. destruct w; simpl; lia. Qed.

Lemma split_scan_length (s : str) :
  length (fst (split_scan s)) + total_length (snd (split_scan s)) <= length s.
Proof.
  induction s as [|c s IH]; cbn [split_scan]; [simpl; lia|].
  destruct (split_scan s) as [w ws]. cbn [fst snd] in IH.
  destruct (isspace c); cbn [fst snd length].
  - pose proof (total_length_push w ws). lia.
  - lia.
Qed.

Lemma join_length (ws : list str) :
  length (join " " ws) + 1 <= total_length ws \/ ws = [].
Proof.
  induction ws as [|w ws IH]; [now right|]. left.
  destruct ws as [|w2 ws'].
  - simpl. lia.
  - change (join " " (w :: w2 :: ws')) with (w ++ " " ++ join " " (w2 :: ws')).
    rewrite !length_app. destruct IH as [IH | IH]; [|discriminate].
    cbn [total_length] in *. simpl length at 2. lia.
Qed.

Lemma join_split_length (s : str) :
  length (join " " (split_ws s)) <= length s.
Proof.
  rewrite split_ws_eq. pose proof (split_scan_length s) as H.
  destruct (split_scan s) as [w ws]. cbn [fst snd] in *.
  pose proof (total_length_push w ws) as Hp.
  destruct (join_length (push_word w ws)) as [Hj | Hj].
  - lia.
  - rewrite Hj. simpl. lia.
Qed.

Lemma collapse_whitespace_length (s : str) :
  length (collapse_whitespace s) <= length s.
Proof.
  unfold collapse_whitespace.
  rewrite (strip_join _ (split_ws_words _)).
  etransitivity; [apply join_split_length|].
  etransitivity; [apply replace_length; [discriminate | simpl; lia]|].
  apply replace_length; [discriminate | simpl; lia].
Qed.

(** X15.  Cleaning never makes a description longer. *)
Theorem clean_description_never_longer (d q : str) :
  clean_description (PStr d) = Ok q -> length q <= length d.
Proof.
  rewrite clean_description_str. intros H. injection H as <-.
  etransitivity; [apply collapse_whitespace_length|].
  destruct (truncate_sections_prefix d) as [r Hr].
  rewrite Hr at 2. rewrite length_app. lia.
Qed.

Lemma clean_description_never_longer_witness :
  length "Great rug. Easy 30 Day" <= length "Great rug. Easy 30 Day Returns apply.".
Proof.
  apply (clean_description_never_longer
           "Great rug. Easy 30 Day Returns apply." "Great rug. Easy 30 Day").
  vm_compute. reflexivity.
Defined.

(** X16.  The price display of an original price that is the string "null"
    is cleaned to what the current price alone is cleaned to: [clean_price]
    undoes the annotation " (was null)". *)
Theorem clean_price_undoes_null_annotation (current : str) :
  clean_price (PStr (Scraper.price_display current (Some "null")))
  = clean_price (PStr current).
Proof.
  unfold Scraper.price_display. cbn [truthy].
  change (negb (str_eqb "null" "")) with true. cbn [andb].
  destruct (negb (str_eqb "null" current)); [|reflexivity].
  change (current ++ " (was " ++ "null" ++ ")") with (current ++ was_null ++ []).
  rewrite !clean_price_str, replace_was_null_around. simpl. now rewrite app_nil_r.
Qed.

(** ** The export when a product fails *)

Lemma write_rows_app (good rest : list pyval) (rows : list record) :
  Forall2 record_of good rows ->
  forall csvfile,
    write_rows (good ++ rest) csvfile = write_rows rest (csvfile ++ rows).
Proof.
  induction 1 as [|product row good rows Hrow Hrows IH]; intros csvfile.
  - now rewrite app_nil_r.
  - cbn [app write_rows].
    destruct Hrow as [p [price [description [-> [Hp [Hd ->]]]]]].
    unfold make_row. rewrite Hp, Hd. cbn [bind_result].
    rewrite IH, <- app_assoc. reflexivity.
Qed.

(** X17.  When a product cannot be turned into a row (it is not an object,
    or its price or description is a truthy value that is not a string), the
    export stops there: the CSV holds the header and the rows of the products
    before it, in order, and nothing of the products after it. *)
Theorem convert_stops_at_first_failure
        (good rest : list pyval) (bad : pyval) (rows : list record) (e : exn) :
  Forall2 record_of good rows ->
  make_row bad = Raise e ->
  convert_citizenry_json_to_csv (PList (good ++ bad :: rest))
  = Failed (header fieldnames :: rows) e.
Proof.
  intros Hgood Hbad. unfold convert_citizenry_json_to_csv.
  assert (Ht : truthy (PList (good ++ bad :: rest)) = true)
    by (cbn [truthy]; destruct good; reflexivity).
  rewrite Ht. cbn [negb py_iter].
  rewrite (write_rows_app good (bad :: rest) rows Hgood).
  cbn [write_rows]. now rewrite Hbad.
Qed.

Lemma convert_stops_at_first_failure_witness :
  convert_citizenry_json_to_csv
    (PList ([PDict [("Name", PStr "Rug")]]
            ++ PDict [("Price", PInt 100)] :: [PDict [("Name", PStr "Throw")]]))
  = Failed (header fieldnames
            :: [[PStr "Rug"; PStr ""; PStr ""; PStr ""; PStr ""; PStr ""; PStr ""]])
           AttributeError.
Proof.
  apply (convert_stops_at_first_failure
           [PDict [("Name", PStr "Rug")]] [PDict [("Name", PStr "Throw")]]
           (PDict [("Price", PInt 100)])).
  - constructor; [|constructor].
    exists [("Name", PStr "Rug")], "", "". repeat split.
  - reflexivity.
Defined.



(** ** The scraper's own CSV *)

Lemma dict_to_list_of_row (p : list (str * pyval)) :
  dict_to_list Scraper.fieldnames
    (map (fun field => (field, dict_get p field (PStr ""))) Scraper.fieldnames)
  = cells_of p.
Proof. vm_compute. reflexivity. Qed.

Lemma save_rows_dicts (ps : list (list (str * pyval))) :
  forall csvfile,
    save_rows (map PDict ps) csvfile = (csvfile ++ map cells_of ps, None).
Proof.
  induction ps as [|p ps IH]; intros csvfile; cbn [map save_rows].
  - now rewrite app_nil_r.
  - unfold save_row. rewrite dict_to_list_of_row, IH, <- app_assoc. reflexivity.
Qed.

(** What [save_rows] has written when it stops: the rows of the records
    before the first value that is not an object. *)
Lemma save_rows_prefix (products : list pyval) :
  forall (csvfile csvfile' : list record) (oe : option exn),
    save_rows products csvfile = (csvfile', oe) ->
    exists done rest,
      products = map PDict done ++ rest /\
      csvfile' = csvfile ++ map cells_of done /\
      (oe = None -> rest = []).
Proof.
  induction products as [|product products IH]; intros csvfile csvfile' oe H.
  - cbn [save_rows] in H. injection H as <- <-. exists [], [].
    cbn [map app]. rewrite app_nil_r. repeat split.
  - cbn [save_rows] in H.
    destruct (save_row product) as [row|e] eqn:Er.
    + destruct product as [| | | | | |p]; try discriminate.
      unfold save_row in Er. rewrite dict_to_list_of_row in Er.
      injection Er as <-.
      apply IH in H. destruct H as [done [rest [-> [-> Hnone]]]].
      exists (p :: done), rest. cbn [map app]. rewrite <- app_assoc.
      repeat split. exact Hnone.
    + injection H as <- <-. exists [], (product :: products).
      cbn [map app]. rewrite app_nil_r. repeat split. discriminate.
Qed.

(** X19.  Strings are those of this development: their characters are the
    code points 0 to 255, which the UTF-8 output file always takes.  For a
    list of records that is not empty, [save_to_csv] writes the header and
    one row per record, in order, each with the seven columns of the header
    (the image path is not among them) and an empty string for a missing
    field; for an empty list it writes no file.  For any list of values,
    what [save_to_csv] has written when it ends, with or without an
    exception, is the header followed by the rows of the records that come
    before the rest of the list, which is empty when no exception ended the
    export. *)
Theorem save_to_csv_rows (ps : list (list (str * pyval))) :
  save_to_csv (PList []) = NothingSaved /\
  (ps <> [] ->
   save_to_csv (PList (map PDict ps))
   = Saved (header Scraper.fieldnames :: map cells_of ps)) /\
  (forall (products : list pyval) (csvfile : list record),
     (save_to_csv (PList products) = Saved csvfile ->
      exists done,
        products = map PDict done /\
        csvfile = header Scraper.fieldnames :: map cells_of done) /\
     (forall e, save_to_csv (PList products) = SaveFailed csvfile e ->
      exists done rest,
        products = map PDict done ++ rest /\
        csvfile = header Scraper.fieldnames :: map cells_of done)) /\
  Forall (fun row => length row = 7) (map cells_of ps) /\
  ~ In "Image Path" Scraper.fieldnames.
Proof.
  split; [reflexivity|]. split; [|split; [|split]].
  - intros Hne. unfold save_to_csv.
    destruct ps as [|p ps]; [contradiction|].
    cbn [map truthy negb py_iter].
    change (PDict p :: map PDict ps) with (map PDict (p :: ps)).
    now rewrite save_rows_dicts.
  - intros products csvfile. unfold save_to_csv.
    destruct products as [|product products]; [split; [|intros e]; discriminate|].
    cbn [truthy negb py_iter].
    destruct (save_rows (product :: products) [header Scraper.fieldnames])
      as [csvfile' oe] eqn:E.
    apply save_rows_prefix in E. destruct E as [done [rest [Hp [Hc Hnone]]]].
    split.
    + intros H. destruct oe as [e|]; [discriminate|]. injection H as <-.
      exists done. rewrite (Hnone eq_refl), app_nil_r in Hp.
      split; [exact Hp | exact Hc].
    + intros e H. destruct oe as [e'|]; [|discriminate]. injection H as <- _.
      exists done, rest. split; [exact Hp | exact Hc].
  - apply Forall_forall. intros row Hin. apply in_map_iff in Hin.
    destruct Hin as [p [<- _]]. reflexivity.
  - vm_compute. intuition discriminate.
Qed.

Lemma save_to_csv_rows_witness :
  save_to_csv (PList (map PDict [[("Name", PStr "Rug"); ("Image Path", PStr "x.jpg")]]))
  = Saved (header Scraper.fieldnames
           :: map cells_of [[("Name", PStr "Rug"); ("Image Path", PStr "x.jpg")]]).
Proof.
  apply (proj1 (proj2 (save_to_csv_rows
                         [[("Name", PStr "Rug"); ("Image Path", PStr "x.jpg")]]))).
  discriminate.
Defined.

Lemma settled_row (p : list (str * pyval)) :
  settled p -> make_row (PDict p) = Ok (map (fun field => (field, dict_get p field (PStr ""))) fieldnames).
Proof.
  intros [[price [Hp Hclean]] [d [Hd Hfix]]]. unfold string_field in *.
  unfold make_row. rewrite Hp, Hd, clean_price_str, Hfix. cbn [bind_result].
  rewrite (replace_absent price was_null "") by (try discriminate; exact Hclean).
  cbn [map fieldnames]. rewrite Hp, Hd. reflexivity.
Qed.

Lemma write_rows_settled (ps : list (list (str * pyval))) :
  Forall settled ps ->
  forall csvfile,
    write_rows (map PDict ps) csvfile = (csvfile ++ map cells_of ps, None).
Proof.
  induction 1 as [|p ps Hp Hps IH]; intros csvfile; cbn [map write_rows].
  - now rewrite app_nil_r.
  - rewrite (settled_row p Hp).
    change fieldnames with Scraper.fieldnames at 1 2.
    rewrite dict_to_list_of_row, IH, <- app_assoc. reflexivity.
Qed.

(** X20.  On records the cleaners leave as they are (a price string without
    " (was null)", a description that is cleaned to itself), the cleaner
    utility writes the very CSV the scraper wrote. *)
Theorem convert_agrees_with_save_to_csv (ps : list (list (str * pyval))) :
  ps <> [] ->
  Forall settled ps ->
  exists csvfile,
    save_to_csv (PList (map PDict ps)) = Saved csvfile /\
    convert_citizenry_json_to_csv (PList (map PDict ps))
    = Converted csvfile (length ps).
Proof.
  intros Hne Hps. exists (header Scraper.fieldnames :: map cells_of ps). split.
  - unfold save_to_csv. destruct ps as [|p ps]; [contradiction|].
    cbn [map truthy negb py_iter].
    change (PDict p :: map PDict ps) with (map PDict (p :: ps)).
    now rewrite save_rows_dicts.
  - unfold convert_citizenry_json_to_csv. destruct ps as [|p ps]; [contradiction|].
    cbn [map truthy negb py_iter].
    change (PDict p :: map PDict ps) with (map PDict (p :: ps)).
    rewrite (write_rows_settled (p :: ps) Hps). now rewrite length_map.
Qed.

Lemma convert_agrees_with_save_to_csv_witness :
  exists csvfile,
    save_to_csv
      (PList (map PDict [[("Name", PStr "Rug"); ("Price", PStr "$100");
                          ("Description of product", PStr "Handwoven rug")]]))
    = Saved csvfile /\
    convert_citizenry_json_to_csv
      (PList (map PDict [[("Name", PStr "Rug"); ("Price", PStr "$100");
                          ("Description of product", PStr "Handwoven rug")]]))
    = Converted csvfile 1.
Proof.
  apply (convert_agrees_with_save_to_csv
           [[("Name", PStr "Rug"); ("Price", PStr "$100");
             ("Description of product", PStr "Handwoven rug")]]).
  - discriminate.
  - constructor; [|constructor]. split.
    + exists "$100". split; vm_compute; reflexivity.
    + exists "Handwoven rug". split; vm_compute; reflexivity.
Defined.

End ConverterMore.
